(** * quest_steamvr_fbt_tool: device resolution, pose transform, calibration
      and the streaming loop of [quest_steamvr_fbt_tool.py].

    The Python program is embedded shallowly.  Python floats are IEEE
    binary64 numbers, modelled by the kernel's primitive floats; the two
    [math] functions the program imports ([asin], [atan]) come from the
    platform's C library and are an interface ([Libm]).  Exceptions are a
    result type; the effects of [run_tracker_server] (messages sent, bulk
    pose reads, operator-facing events) are threaded through an explicit
    state that survives an exception, as the effects of a Python statement
    do. *)

From Stdlib Require Import List String Bool Arith ZArith Lia.
From Stdlib Require Import DecimalString.
From Stdlib Require Import Uint63 Floats.
Import ListNotations.

Set Implicit Arguments.

Local Open Scope string_scope.
Local Open Scope list_scope.

(* ===================================================================== *)
(** ** Python values and exceptions *)
(* ===================================================================== *)

(** The exception classes the modelled code can raise or let through.
    [RuntimeError] is raised by [get_device_index], [AssertionError] by the
    device-count [assert], [IndexError] by a subscript out of range,
    [ZeroDivisionError] by float division, [ValueError] by [math.asin]
    outside its domain, [TypeError] by a subscript that is [None];
    [OpenVRError] and [TransportError] stand for whatever
    the tracking runtime and the UDP client raise. *)
Inductive exn : Type :=
| RuntimeError
| AssertionError
| IndexError
| ZeroDivisionError
| ValueError
| TypeError
| OpenVRError
| TransportError.

(** What running a piece of the program gives: a value, a raised exception,
    or [OutOfFuel] when the model of a [while True] loop was given too few
    iterations to reach a [return] (never a value of the program). *)
Inductive result (A : Type) : Type :=
| OK (a : A)
| Err (e : exn)
| OutOfFuel.
Arguments OK {A} a.
Arguments Err {A} e.
Arguments OutOfFuel {A}.

(** The numbers that reach the wire: the program mixes Python ints (the
    literals [0] and [-1]) with floats. *)
Inductive pynum : Type :=
| PyInt (z : Z)
| PyFloat (f : float).

(** [float(z)] for the small ints the program uses. *)
Definition float_of_int (z : Z) : float :=
  match z with
  | Z0 => PrimFloat.zero
  | Zpos _ => PrimFloat.of_uint63 (Uint63.of_Z z)
  | Zneg p => PrimFloat.opp (PrimFloat.of_uint63 (Uint63.of_Z (Zpos p)))
  end.

(** Arithmetic coercion of an operand of a float operation. *)
Definition to_float (v : pynum) : float :=
  match v with
  | PyInt z => float_of_int z
  | PyFloat f => f
  end.

(** [a / b] on floats: Python raises on a zero divisor (of either sign)
    instead of producing an infinity or a NaN. *)
Definition py_truediv (a b : float) : result float :=
  if PrimFloat.eqb b PrimFloat.zero then Err ZeroDivisionError
  else OK (PrimFloat.div a b).

(** [xs[i]] for a non-negative index. *)
Definition py_index {A : Type} (xs : list A) (i : nat) : result A :=
  match nth_error xs i with
  | Some x => OK x
  | None => Err IndexError
  end.

(** The C library behind Python's [math] module. *)
Class Libm : Type := {
  libm_asin : float -> float;
  libm_atan : float -> float
}.

(** [math.asin]: NaN goes through, an argument outside [-1, 1] is a
    "math domain error". *)
Definition math_asin `{Libm} (x : float) : result float :=
  if PrimFloat.is_nan x then OK (libm_asin x)
  else if PrimFloat.leb (PrimFloat.opp PrimFloat.one) x
          && PrimFloat.leb x PrimFloat.one
       then OK (libm_asin x)
       else Err ValueError.

(** [math.atan] is defined on every float. *)
Definition math_atan `{Libm} (x : float) : float := libm_atan x.

(* ===================================================================== *)
(** ** The tracking runtime: device slots *)
(* ===================================================================== *)

(** [openvr.IVRSystem().getStringTrackedDeviceProperty(i,
    Prop_SerialNumber_String)]: the serial of slot [i], the empty string
    for a slot that holds no device and for every index past the last
    slot. *)
Definition getStringTrackedDeviceProperty (slots : list string) (i : nat) : string :=
  nth i slots "".

(** [get_all_device_serial]: the serials up to the first empty one. *)
Fixpoint get_all_device_serial_loop (fuel : nat) (slots : list string)
  (ret : list string) (i : nat) : result (list string) :=
  match fuel with
  | O => OutOfFuel
  | S fuel' =>
      let serial := getStringTrackedDeviceProperty slots i in
      if String.eqb serial "" then OK ret
      else get_all_device_serial_loop fuel' slots (ret ++ [serial]) (S i)
  end.

(** Slot [length slots] reads as empty, so [S (length slots)] iterations
    always reach a [return]. *)
Definition slot_fuel (slots : list string) : nat := S (List.length slots).

Definition get_all_device_serial (slots : list string) : result (list string) :=
  get_all_device_serial_loop (slot_fuel slots) slots [] 0.

(** [get_device_index]: the match is tested before the empty-serial
    sentinel.  [OK None] is Python's [return None]. *)
Fixpoint get_device_index_loop (fuel : nat) (slots : list string)
  (device_name : string) (ignore : bool) (i : nat) : result (option nat) :=
  match fuel with
  | O => OutOfFuel
  | S fuel' =>
      let serial_num := getStringTrackedDeviceProperty slots i in
      if String.eqb serial_num device_name then OK (Some i)
      else if String.eqb serial_num "" then
        if ignore then OK None else Err RuntimeError
      else get_device_index_loop fuel' slots device_name ignore (S i)
  end.

Definition get_device_index (slots : list string) (device_name : string)
  (ignore : bool) : result (option nat) :=
  get_device_index_loop (slot_fuel slots) slots device_name ignore 0.

(* ===================================================================== *)
(** ** Pose transform *)
(* ===================================================================== *)

Definition bindR {A B : Type} (c : result A) (k : A -> result B) : result B :=
  match c with
  | OK a => k a
  | Err e => Err e
  | OutOfFuel => OutOfFuel
  end.

Declare Scope result_scope.
Delimit Scope result_scope with result.
Notation "x <-- c ;; k" := (bindR c (fun x => k))
  (at level 61, c at next level, right associativity) : result_scope.

(** A pose matrix as the program holds it: a list of rows. *)
Definition matrix : Type := list (list float).

Definition get_position (m : matrix) : result (float * float * float) :=
  (r0 <-- py_index m 0 ;; pos_x <-- py_index r0 3 ;;
   r1 <-- py_index m 1 ;; pos_y <-- py_index r1 3 ;;
   r2 <-- py_index m 2 ;; pos_z <-- py_index r2 3 ;;
   OK (pos_x, pos_y, pos_z))%result.

(** [rot_y != 0] compares a float with the int [0]. *)
Definition float_ne_int (x : float) (z : Z) : bool :=
  negb (PrimFloat.eqb x (float_of_int z)).

Definition get_euler_angle `{Libm} (m : matrix) : result (pynum * pynum * pynum) :=
  (r0 <-- py_index m 0 ;; m02 <-- py_index r0 2 ;;
   rot_y <-- math_asin m02 ;;
   if float_ne_int rot_y 0 then
     r1 <-- py_index m 1 ;; m12 <-- py_index r1 2 ;;
     r2 <-- py_index m 2 ;; m22 <-- py_index r2 2 ;;
     qx <-- py_truediv (PrimFloat.opp m12) m22 ;;
     let rot_x := math_atan qx in
     r0' <-- py_index m 0 ;; m01 <-- py_index r0' 1 ;;
     r0'' <-- py_index m 0 ;; m00 <-- py_index r0'' 0 ;;
     qz <-- py_truediv (PrimFloat.opp m01) m00 ;;
     let rot_z := math_atan qz in
     OK (PyFloat rot_x, PyFloat rot_y, PyFloat rot_z)
   else
     r2 <-- py_index m 2 ;; m21 <-- py_index r2 1 ;;
     r1 <-- py_index m 1 ;; m11 <-- py_index r1 1 ;;
     qx <-- py_truediv m21 m11 ;;
     let rot_x := math_atan qx in
     OK (PyFloat rot_x, PyFloat rot_y, PyInt 0))%result.

(* ===================================================================== *)
(** ** The collaborators and the state of a run *)
(* ===================================================================== *)

(** An OSC message handed to [client.send_message]. *)
Definition message : Type := (string * list pynum)%type.

(** What the operator-facing shell is asked to do. *)
Inductive event : Type :=
| LogCritical (e : exn)
| MessageBox (e : exn)
| SetThreadTerminate
| WxExit
| LogInfo (s : string).

(** The behaviour of everything outside the program during one run. *)
Record world : Type := {
  (** serial of each device slot *)
  device_slots : list string;
  (** whether [udp_client.SimpleUDPClient(addr, port)] raises *)
  client_fault : option exn;
  (** what the n-th call of [getLastPoses] gives: the pose matrix of every
      slot, or an exception *)
  last_poses : nat -> exn + list matrix;
  (** whether the send after n delivered messages raises *)
  send_fault : nat -> option exn;
  (** the value of the global [thread_terminate] read by the t-th
      iteration of the streaming loop *)
  thread_terminate : nat -> bool
}.

Record config : Type := {
  addr : string;
  port : Z;
  use_device : list string;
  ignore_not_found_device : bool;
  standard_device : option string;
  delta : float
}.

Record state : Type := {
  sent : list message;      (** messages handed to the transport, oldest first *)
  pose_reads : nat;         (** calls of [getLastPoses] made so far *)
  shell : list event        (** events raised to the shell, oldest first *)
}.

Definition initial_state : state :=
  {| sent := []; pose_reads := 0; shell := [] |}.

(** Computations with effects: the state is kept when an exception is
    raised. *)
Definition M (A : Type) : Type := state -> result A * state.

Definition ret {A : Type} (a : A) : M A := fun st => (OK a, st).

Definition bind {A B : Type} (c : M A) (k : A -> M B) : M B :=
  fun st =>
    match c st with
    | (OK a, st') => k a st'
    | (Err e, st') => (Err e, st')
    | (OutOfFuel, st') => (OutOfFuel, st')
    end.

Definition lift {A : Type} (r : result A) : M A := fun st => (r, st).

Definition raise {A : Type} (e : exn) : M A := fun st => (Err e, st).

Declare Scope run_scope.
Delimit Scope run_scope with run.
Notation "x <- c ;; k" := (bind c (fun x => k))
  (at level 61, c at next level, right associativity) : run_scope.
Notation "c ;; k" := (bind c (fun _ => k))
  (at level 61, right associativity) : run_scope.
Notation "' pat <- c ;; k" := (bind c (fun x => match x with pat => k end))
  (at level 61, pat pattern, c at next level, right associativity) : run_scope.

Definition log (evs : list event) (st : state) : state :=
  {| sent := sent st; pose_reads := pose_reads st; shell := shell st ++ evs |}.

(** [error_handling()], with the exception being handled made explicit. *)
Definition error_handling (e : exn) (st : state) : state :=
  log [LogCritical e; MessageBox e; SetThreadTerminate; WxExit] st.

(** [udp_client.SimpleUDPClient(addr, port)]. *)
Definition SimpleUDPClient (w : world) : M unit :=
  match client_fault w with
  | Some e => raise e
  | None => ret tt
  end.

(** [openvr.VRCompositor().getLastPoses(poses, None)]. *)
Definition getLastPoses (w : world) : M (list matrix) :=
  fun st =>
    let st' := {| sent := sent st; pose_reads := S (pose_reads st); shell := shell st |} in
    match last_poses w (pose_reads st) with
    | inr poses => (OK poses, st')
    | inl e => (Err e, st')
    end.

(** [client.send_message(address, args)]. *)
Definition send_message (w : world) (address : string) (args : list pynum) : M unit :=
  fun st =>
    match send_fault w (List.length (sent st)) with
    | Some e => (Err e, st)
    | None =>
        (OK tt, {| sent := sent st ++ [(address, args)];
                   pose_reads := pose_reads st; shell := shell st |})
    end.

(** [assert b]. *)
Definition py_assert (b : bool) : M unit :=
  if b then ret tt else raise AssertionError.

(** [str(n)] for a non-negative int. *)
Definition str (n : nat) : string := NilEmpty.string_of_uint (Nat.to_uint n).

(* ===================================================================== *)
(** ** [run_tracker_server] *)
(* ===================================================================== *)

(** The [for device in use_device] loop of the first [try] block. *)
Fixpoint resolve_devices (slots : list string) (ignore : bool)
  (use : list string) (device_indexes : list nat) : result (list nat) :=
  match use with
  | [] => OK device_indexes
  | device :: rest =>
      (i <-- get_device_index slots device ignore ;;
       match i with
       | Some i => resolve_devices slots ignore rest (device_indexes ++ [i])
       | None => resolve_devices slots ignore rest device_indexes
       end)%result
  end.

(** The body of the first [try] block (lines 78-85). *)
Definition startup (w : world) (cfg : config) : M (list nat) :=
  (SimpleUDPClient w ;;
   device_indexes <- lift (resolve_devices (device_slots w)
                             (ignore_not_found_device cfg) (use_device cfg) []) ;;
   py_assert (Nat.ltb 0 (List.length device_indexes)
              && Nat.ltb (List.length device_indexes) 9) ;;
   ret device_indexes)%run.

(** The body of the second [try] block (lines 92-95). *)
Definition calibrate (w : world) (cfg : config) (std : string) : M pynum :=
  (i <- lift (get_device_index (device_slots w) std false) ;;
   poses <- getLastPoses w ;;
   match i with
   | None => raise TypeError
   | Some i =>
       pose <- lift (py_index poses i) ;;
       r1 <- lift (py_index pose 1) ;;
       y <- lift (py_index r1 3) ;;
       ret (PyFloat (PrimFloat.add (PrimFloat.mul (float_of_int (-1)) y) (delta cfg)))
   end)%run.

(** The body of the [for i, j in enumerate(device_indexes)] loop
    (lines 110-140). *)
Definition stream_device `{Libm} (w : world) (y_delta : pynum)
  (poses : list matrix) (i j : nat) : M unit :=
  (m <- lift (py_index poses j) ;;
   ' (pos_x, pos_y, pos_z) <- lift (get_position m) ;;
   ' (rot_x, rot_y, rot_z) <- lift (get_euler_angle m) ;;
   send_message w ("/tracking/trackers/" ++ str (i + 1) ++ "/position")
     [PyFloat (PrimFloat.opp pos_x);
      PyFloat (PrimFloat.add pos_y (to_float y_delta));
      PyFloat pos_z] ;;
   send_message w ("/tracking/trackers/" ++ str (i + 1) ++ "/rotation/x") [rot_x] ;;
   send_message w ("/tracking/trackers/" ++ str (i + 1) ++ "/rotation/y") [rot_y] ;;
   send_message w ("/tracking/trackers/" ++ str (i + 1) ++ "/rotation/z") [rot_z])%run.

Fixpoint stream_devices `{Libm} (w : world) (y_delta : pynum)
  (poses : list matrix) (i : nat) (device_indexes : list nat) : M unit :=
  match device_indexes with
  | [] => ret tt
  | j :: rest =>
      (stream_device w y_delta poses i j ;;
       stream_devices w y_delta poses (S i) rest)%run
  end.

(** The body of the [try] block of one iteration (lines 108-140). *)
Definition tick `{Libm} (w : world) (device_indexes : list nat) (y_delta : pynum) : M unit :=
  (poses <- getLastPoses w ;;
   stream_devices w y_delta poses 0 device_indexes)%run.

(** How a run ends, by the [return] it reaches; [StillRunning] when the
    iterations given to the streaming loop are used up. *)
Inductive outcome : Type :=
| StartupFailed (e : exn)        (* line 88 *)
| CalibrationFailed (e : exn)    (* line 98 *)
| Terminated                     (* line 106 *)
| LoopFailed (e : exn)           (* line 143 *)
| StillRunning.

(** The [while True] loop (lines 102-143); [t] counts its iterations. *)
Fixpoint stream_loop `{Libm} (fuel : nat) (w : world) (device_indexes : list nat)
  (y_delta : pynum) (t : nat) (st : state) : outcome * state :=
  match fuel with
  | O => (StillRunning, st)
  | S fuel' =>
      if thread_terminate w t then
        (Terminated, log [LogInfo "Terminate signal received."; WxExit] st)
      else
        match tick w device_indexes y_delta st with
        | (OK _, st') => stream_loop fuel' w device_indexes y_delta (S t) st'
        | (Err e, st') => (LoopFailed e, error_handling e st')
        | (OutOfFuel, st') => (StillRunning, st')
        end
  end.

(** Lines 90-100: the offset, or the exception of the second [try]. *)
Definition y_delta_of (w : world) (cfg : config) : M pynum :=
  match standard_device cfg with
  | Some std => calibrate w cfg std
  | None => ret (PyInt 0)
  end.

Definition run_tracker_server `{Libm} (fuel : nat) (w : world) (cfg : config)
  (st : state) : outcome * state :=
  match startup w cfg st with
  | (Err e, st1) => (StartupFailed e, error_handling e st1)
  | (OutOfFuel, st1) => (StillRunning, st1)
  | (OK device_indexes, st1) =>
      match y_delta_of w cfg st1 with
      | (Err e, st2) => (CalibrationFailed e, error_handling e st2)
      | (OutOfFuel, st2) => (StillRunning, st2)
      | (OK y_delta, st2) => stream_loop fuel w device_indexes y_delta 0 st2
      end
  end.

(* ===================================================================== *)
(** ** Vocabulary of the statements *)
(* ===================================================================== *)

(** Slots [i .. i+k-1] are passed over when looking for [name]: none of
    them matches, none is empty. *)
Definition passed_over (slots : list string) (name : string) (i k : nat) : Prop :=
  forall j, i <= j < i + k ->
    getStringTrackedDeviceProperty slots j <> name
    /\ getStringTrackedDeviceProperty slots j <> "".

(** Entry [m[i][j]] of a matrix that has one. *)
Definition entry (m : matrix) (i j : nat) : float :=
  nth j (nth i m []) PrimFloat.zero.

(** A pose matrix has four columns, and the three rows of the runtime's
    3x4 form or the four rows of the homogeneous 4x4 form. *)
Definition well_formed (m : matrix) : Prop :=
  3 <= List.length m <= 4 /\ Forall (fun row => List.length row = 4) m.

(** The argument of [asin] lies in [-1, 1]. *)
Definition in_asin_domain (x : float) : bool :=
  PrimFloat.leb (PrimFloat.opp PrimFloat.one) x && PrimFloat.leb x PrimFloat.one.

(** [x == 0] on floats (true of both zeros, false of NaN). *)
Definition is_zero (x : float) : bool := PrimFloat.eqb x PrimFloat.zero.

(** The device count the [assert] of line 85 accepts. *)
Definition valid_device_count (n : nat) : bool := Nat.ltb 0 n && Nat.ltb n 9.

(** Whether a run got as far as the streaming loop. *)
Definition reached_streaming (o : outcome) : bool :=
  match o with
  | StartupFailed _ | CalibrationFailed _ => false
  | Terminated | LoopFailed _ | StillRunning => true
  end.

(** What one iteration leaves behind when the bulk pose read raises. *)
Definition after_pose_read (st : state) : state :=
  {| sent := sent st; pose_reads := S (pose_reads st); shell := shell st |}.

(** The offset as the calibration contract words it: the height of the
    reference device negated, plus [delta]. *)
Definition offset_from (y delta : float) : float :=
  PrimFloat.add (PrimFloat.opp y) delta.

(** A computation that never reports an exhausted fuel. *)
Definition returns {A : Type} (c : M A) : Prop :=
  forall st, fst (c st) <> OutOfFuel.

(** The state after the messages [msgs] were handed to the transport. *)
Definition push (msgs : list message) (st : state) : state :=
  {| sent := sent st ++ msgs; pose_reads := pose_reads st; shell := shell st |}.

(** The four messages of channel [n] as the wire contract lists them, for
    the pose [m] with extracted angles [rot], under the address prefix
    [ns]. *)
Definition channel_messages (ns : string) (offset : pynum) (n : nat)
  (m : matrix) (rot : pynum * pynum * pynum) : list message :=
  let '(rot_x, rot_y, rot_z) := rot in
  [ ((ns ++ "trackers/" ++ str n ++ "/position")%string,
     [PyFloat (PrimFloat.opp (entry m 0 3));
      PyFloat (PrimFloat.add (entry m 1 3) (to_float offset));
      PyFloat (entry m 2 3)]);
    ((ns ++ "trackers/" ++ str n ++ "/rotation/x")%string, [rot_x]);
    ((ns ++ "trackers/" ++ str n ++ "/rotation/y")%string, [rot_y]);
    ((ns ++ "trackers/" ++ str n ++ "/rotation/z")%string, [rot_z]) ].

(** The messages of the channels [n], [n+1], ... in this order. *)
Fixpoint tick_messages (ns : string) (offset : pynum) (n : nat)
  (chans : list (matrix * (pynum * pynum * pynum))) : list message :=
  match chans with
  | [] => []
  | (m, rot) :: rest =>
      channel_messages ns offset n m rot ++ tick_messages ns offset (S n) rest
  end.

(** Slot [j] of the pose set holds the well-formed pose [m], from which
    the angles [rot] are extracted. *)
Definition extracted `{Libm} (poses : list matrix) (j : nat)
  (chan : matrix * (pynum * pynum * pynum)) : Prop :=
  nth_error poses j = Some (fst chan)
  /\ well_formed (fst chan)
  /\ get_euler_angle (fst chan) = OK (snd chan).

(** Lines 110-113 of the loop body: the pose of slot [j], its position
    and its angles, before anything is sent for the channel. *)
Definition transform `{Libm} (poses : list matrix) (j : nat)
  : result ((float * float * float) * (pynum * pynum * pynum)) :=
  (m <-- py_index poses j ;;
   pos <-- get_position m ;;
   rot <-- get_euler_angle m ;;
   OK (pos, rot))%result.

(** [n] iterations of the loop body one after the other, up to the first
    that raises: the state the loop is in when it starts iteration
    [n + 1]. *)
Fixpoint ticks `{Libm} (n : nat) (w : world) (device_indexes : list nat)
  (y_delta : pynum) (st : state) : result unit * state :=
  match n with
  | O => (OK tt, st)
  | S n' =>
      match tick w device_indexes y_delta st with
      | (OK _, st') => ticks n' w device_indexes y_delta st'
      | (Err e, st') => (Err e, st')
      | (OutOfFuel, st') => (OutOfFuel, st')
      end
  end.

(** The slot a serial resolves to when missing devices are ignored, as a
    list: one index, or none. *)
Definition found (slots : list string) (name : string) : list nat :=
  match get_device_index slots name true with
  | OK (Some i) => [i]
  | _ => []
  end.

(** Slot [i] is the first slot carrying [name], no empty slot before it. *)
Definition first_slot_of (slots : list string) (name : string) (i : nat) : Prop :=
  passed_over slots name 0 i /\ getStringTrackedDeviceProperty slots i = name.

(** The scan for [name] ends at an empty slot before any match. *)
Definition not_found (slots : list string) (name : string) : Prop :=
  exists i,
    passed_over slots name 0 i
    /\ getStringTrackedDeviceProperty slots i = ""
    /\ name <> "".

(** The address of channel [n] with the given suffix. *)
Definition channel_address (n : nat) (suffix : string) : string :=
  ("/tracking/trackers/" ++ str n ++ suffix)%string.

(** A message of channel [n]: the position with three numbers, or one of
    the three rotations with one number. *)
Definition addressed_to (n : nat) (msg : message) : Prop :=
  (fst msg = channel_address n "/position" /\ List.length (snd msg) = 3)
  \/ (fst msg = channel_address n "/rotation/x" /\ List.length (snd msg) = 1)
  \/ (fst msg = channel_address n "/rotation/y" /\ List.length (snd msg) = 1)
  \/ (fst msg = channel_address n "/rotation/z" /\ List.length (snd msg) = 1).

(** What the shell is asked on the way out of [run_tracker_server]. *)
Definition exit_events (o : outcome) : list event :=
  match o with
  | Terminated => [LogInfo "Terminate signal received."; WxExit]
  | StartupFailed e | CalibrationFailed e | LoopFailed e =>
      [LogCritical e; MessageBox e; SetThreadTerminate; WxExit]
  | StillRunning => []
  end.

(* ===================================================================== *)
(** ** Sample data *)
(* ===================================================================== *)

Set Warnings "-inexact-float".
Local Open Scope float_scope.

(** A small stand-in for the C library, for running the model on concrete
    poses: the Maclaurin polynomials of degree 7.  Every theorem below holds
    for every instance of [Libm]. *)
Definition maclaurin_asin (x : float) : float :=
  let x2 := x * x in
  x * (1 + x2 * (1 / 6 + x2 * (3 / 40 + x2 * (15 / 336)))).

Definition maclaurin_atan (x : float) : float :=
  let x2 := x * x in
  x * (1 - x2 * (1 / 3 - x2 * (1 / 5 - x2 * (1 / 7)))).

Definition maclaurin_libm : Libm :=
  {| libm_asin := maclaurin_asin; libm_atan := maclaurin_atan |}.

(** A tracker yawed a little: a rotation about Y by the angle whose sine is
    0.28, at position (0.1, 1.2, 0.3). *)
Definition pose_yawed : matrix :=
  [ [0.96; 0; 0.28; 0.1];
    [0; 1; 0; 1.2];
    [-0.28; 0; 0.96; 0.3];
    [0; 0; 0; 1] ].

(** A tracker at rest: the identity rotation at position (0.1, 1.2, 0.3). *)
Definition pose_level : matrix :=
  [ [1; 0; 0; 0.1];
    [0; 1; 0; 1.2];
    [0; 0; 1; 0.3];
    [0; 0; 0; 1] ].

(** A tracker pitched by a quarter turn about X: its rotation is
    [[1,0,0],[0,0,-1],[0,1,0]]. *)
Definition pose_pitched_quarter : matrix :=
  [ [1; 0; 0; 0.1];
    [0; 0; -1; 1.2];
    [0; 1; 0; 0.3];
    [0; 0; 0; 1] ].

(** A tracker whose Z axis lies in the horizontal plane: the rotation with
    columns (0.8, -0.6, 0), (0, 0, -1), (0.6, 0.8, 0). *)
Definition pose_z_horizontal : matrix :=
  [ [0.8; 0; 0.6; 0.1];
    [-0.6; 0; 0.8; 1.2];
    [0; -1; 0; 0.3];
    [0; 0; 0; 1] ].

(** A tracker yawed by a quarter turn about Y, the gimbal lock of this
    angle convention: its rotation is [[0,0,1],[0,1,0],[-1,0,0]]. *)
Definition pose_yawed_quarter : matrix :=
  [ [0; 0; 1; 0.1];
    [0; 1; 0; 1.2];
    [-1; 0; 0; 0.3];
    [0; 0; 0; 1] ].

(** The reference device of the calibration example: at height 1.2. *)
Definition pose_reference : matrix :=
  [ [1; 0; 0; 0];
    [0; 1; 0; 1.2];
    [0; 0; 1; 0];
    [0; 0; 0; 1] ].

(** The pose the runtime reports for a slot that holds no device. *)
Definition pose_vacant : matrix :=
  [ [0; 0; 0; 0];
    [0; 0; 0; 0];
    [0; 0; 0; 0];
    [0; 0; 0; 1] ].

(** The bulk pose read covers every slot, occupied or not. *)
Definition studio_poses : list matrix :=
  [pose_reference; pose_level; pose_yawed; pose_vacant].

(** A runtime with a headset and two trackers; the operator asks for the
    end of the run before the third iteration. *)
Definition studio : world :=
  {| device_slots := ["HMD"; "LHR-A"; "LHR-B"; ""];
     client_fault := None;
     last_poses := fun _ => inr studio_poses;
     send_fault := fun _ => None;
     thread_terminate := fun t => Nat.leb 2 t |}.

(** The same runtime, whose second bulk pose read fails. *)
Definition studio_read_failure : world :=
  {| device_slots := ["HMD"; "LHR-A"; "LHR-B"; ""];
     client_fault := None;
     last_poses := fun n => if Nat.eqb n 1 then inl OpenVRError
                            else inr studio_poses;
     send_fault := fun _ => None;
     thread_terminate := fun _ => false |}.

(** The same runtime, once the first tracker is pitched by a quarter
    turn. *)
Definition studio_pitched : world :=
  {| device_slots := ["HMD"; "LHR-A"; "LHR-B"; ""];
     client_fault := None;
     last_poses := fun _ => inr [pose_reference; pose_pitched_quarter; pose_yawed;
                                 pose_vacant];
     send_fault := fun _ => None;
     thread_terminate := fun _ => false |}.

(** The same runtime, with a transport that fails on the sixth message. *)
Definition studio_send_failure : world :=
  {| device_slots := ["HMD"; "LHR-A"; "LHR-B"; ""];
     client_fault := None;
     last_poses := fun _ => inr studio_poses;
     send_fault := fun n => if Nat.eqb n 5 then Some TransportError else None;
     thread_terminate := fun _ => false |}.

Definition two_trackers : config :=
  {| addr := "127.0.0.1"; port := 9000;
     use_device := ["LHR-A"; "LHR-B"];
     ignore_not_found_device := false;
     standard_device := None;
     delta := 0.05 |}.

Definition two_trackers_calibrated : config :=
  {| addr := "127.0.0.1"; port := 9000;
     use_device := ["LHR-A"; "LHR-B"];
     ignore_not_found_device := false;
     standard_device := Some "HMD";
     delta := 0.05 |}.

(** The default configuration: no device listed. *)
Definition no_device : config :=
  {| addr := "127.0.0.1"; port := 9000;
     use_device := [];
     ignore_not_found_device := false;
     standard_device := None;
     delta := 0.05 |}.

(** A reference device that is not plugged in, missing devices ignored. *)
Definition missing_reference : config :=
  {| addr := "127.0.0.1"; port := 9000;
     use_device := ["LHR-A"; "LHR-B"];
     ignore_not_found_device := true;
     standard_device := Some "LHR-Z";
     delta := 0.05 |}.

(** The reference device left blank in the configuration file. *)
Definition blank_reference : config :=
  {| addr := "127.0.0.1"; port := 9000;
     use_device := ["LHR-A"; "LHR-B"];
     ignore_not_found_device := false;
     standard_device := Some "";
     delta := 0.05 |}.

(** Two trackers that are not plugged in, missing devices ignored. *)
Definition absent_trackers : config :=
  {| addr := "127.0.0.1"; port := 9000;
     use_device := ["LHR-X"; "LHR-Y"];
     ignore_not_found_device := true;
     standard_device := None;
     delta := 0.05 |}.

(** A matrix that is no rotation: [m[0][2] = 1.5]. *)
Definition pose_sheared : matrix :=
  [ [1; 0; 1.5; 0.1];
    [0; 1; 0; 1.2];
    [0; 0; 1; 0.3];
    [0; 0; 0; 1] ].

(** The pose of [pose_yawed] in the runtime's 3x4 form. *)
Definition pose_yawed_34 : matrix :=
  [ [0.96; 0; 0.28; 0.1];
    [0; 1; 0; 1.2];
    [-0.28; 0; 0.96; 0.3] ].

(** The two channels of the sample run: the poses of slots 1 and 2 and
    their angles under [maclaurin_libm]. *)
Definition studio_channels : list (matrix * (pynum * pynum * pynum)) :=
  [ (pose_level, (PyFloat (maclaurin_atan (0 / 1)), PyFloat (maclaurin_asin 0), PyInt 0));
    (pose_yawed,
     (PyFloat (maclaurin_atan (- 0 / 0.96)), PyFloat (maclaurin_asin 0.28),
      PyFloat (maclaurin_atan (- 0 / 0.96)))) ].

Local Close Scope float_scope.

(* ===================================================================== *)
(** * Properties *)
(* ===================================================================== *)

(* ===================================================================== *)
(** ** Binary64 facts *)
(* ===================================================================== *)

Section MinusOne.

Local Open Scope Z_scope.

Lemma digits2_pos_shift (m : positive) (n : nat) :
  Zpos (digits2_pos (Nat.iter n xO m)) = Zpos (digits2_pos m) + Z.of_nat n.
Proof.
  induction n as [|n IH].
  - cbn. lia.
  - change (Nat.iter (S n) xO m) with (xO (Nat.iter n xO m)).
    cbn [digits2_pos]. rewrite Pos2Z.inj_succ, IH. lia.
Qed.

Lemma iter_shr_1_exact (m : positive) (n : nat) :
  Nat.iter n shr_1 {| shr_m := Zpos (Nat.iter n xO m); shr_r := false; shr_s := false |}
  = {| shr_m := Zpos m; shr_r := false; shr_s := false |}.
Proof.
  induction n as [|n IH]; [reflexivity|].
  rewrite Nat.iter_succ_r.
  change (Nat.iter (S n) xO m) with (xO (Nat.iter n xO m)).
  exact IH.
Qed.

(** Rounding a mantissa scaled by 2^52 at an exponent lowered by 52 gives
    the mantissa back: nothing is lost. *)
Lemma binary_round_aux_scaled (s : bool) (m : positive) (e : Z) :
  bounded prec emax m e = true ->
  binary_round_aux prec emax s (Zpos (Nat.iter 52 xO m)) (-52 + e) loc_Exact
  = S754_finite s m e.
Proof.
  unfold bounded, canonical_mantissa. rewrite andb_true_iff, Z.eqb_eq.
  intros [Hcan Hle].
  unfold binary_round_aux, shr_fexp.
  cbn [Zdigits2]. rewrite digits2_pos_shift.
  replace (Zpos (digits2_pos m) + Z.of_nat 52 + (-52 + e))
    with (Zpos (digits2_pos m) + e) by lia.
  rewrite Hcan.
  replace (e - (-52 + e)) with 52 by lia.
  cbn [shr shr_record_of_loc].
  change (iter_pos shr_1 52) with (Nat.iter 52 shr_1).
  rewrite iter_shr_1_exact.
  cbn [shr_m loc_of_shr_record round_nearest_even Zdigits2].
  replace (-52 + e + 52) with e by lia.
  rewrite Hcan, Z.sub_diag. cbn [shr shr_record_of_loc shr_m].
  now rewrite Hle.
Qed.

(** The product with [-1.0] is the negation, for every float. *)
Lemma mul_minus_one (y : float) :
  PrimFloat.mul (float_of_int (-1)) y = PrimFloat.opp y.
Proof.
  apply Prim2SF_inj. rewrite mul_spec, opp_spec.
  pose proof (Prim2SF_valid y) as Hv.
  change (Prim2SF (float_of_int (-1)))
    with (S754_finite true 4503599627370496 (-52)).
  destruct (Prim2SF y) as [s|s| |s m e]; try reflexivity.
  cbn [valid_binary] in Hv.
  unfold SF64mul, SFmul.
  change (Pos.mul 4503599627370496 m) with (Nat.iter 52 xO m).
  now rewrite (binary_round_aux_scaled _ _ _ Hv).
Qed.

End MinusOne.

(* ===================================================================== *)
(** ** Subscripts and sends *)
(* ===================================================================== *)

Lemma py_index_some {A : Type} (xs : list A) (i : nat) (x : A) :
  nth_error xs i = Some x -> py_index xs i = OK x.
Proof. unfold py_index. now intros ->. Qed.

Lemma push_push (a b : list message) (st : state) :
  push b (push a st) = push (a ++ b) st.
Proof. unfold push; cbn. now rewrite app_assoc. Qed.

Lemma push_nil (st : state) : push [] st = st.
Proof. destruct st; unfold push; cbn. now rewrite app_nil_r. Qed.

Lemma send_message_ok (w : world) (address : string) (args : list pynum) (st : state) :
  send_fault w (List.length (sent st)) = None ->
  send_message w address args st = (OK tt, push [(address, args)] st).
Proof. unfold send_message. now intros ->. Qed.

Lemma send_message_fault (w : world) (address : string) (args : list pynum)
  (st : state) (e : exn) :
  send_fault w (List.length (sent st)) = Some e ->
  send_message w address args st = (Err e, st).
Proof. unfold send_message. now intros ->. Qed.

(* ===================================================================== *)
(** ** Device resolution *)
(* ===================================================================== *)

Example resolve_B : get_device_index ["A"; "B"; ""] "B" false = OK (Some 1).
Proof. reflexivity. Qed.

Section Resolver.

Variable slots : list string.

Lemma serial_nonempty_lt j : getStringTrackedDeviceProperty slots j <> "" -> j < List.length slots.
Proof.
  intros Hne. destruct (Nat.lt_ge_cases j (List.length slots)) as [|Hge]; trivial.
  exfalso. apply Hne. unfold getStringTrackedDeviceProperty.
  now apply nth_overflow.
Qed.

Lemma passed_over_bound name k : passed_over slots name 0 k -> k <= List.length slots.
Proof.
  intros Hp. destruct k as [|k]; [lia|].
  destruct (Hp k ltac:(lia)) as [_ Hne].
  apply serial_nonempty_lt in Hne. lia.
Qed.

Lemma get_device_index_loop_skip name ignore k :
  forall fuel i,
    passed_over slots name i k ->
    get_device_index_loop (k + fuel) slots name ignore i
    = get_device_index_loop fuel slots name ignore (i + k).
Proof.
  induction k as [|k IH]; intros fuel i Hp.
  - now rewrite Nat.add_0_r.
  - destruct (Hp i ltac:(lia)) as [Hn He].
    cbn [Nat.add get_device_index_loop].
    apply String.eqb_neq in Hn, He. rewrite Hn, He.
    rewrite IH; [f_equal; lia|].
    intros j Hj. apply Hp. lia.
Qed.

Lemma get_device_index_found name ignore i :
  passed_over slots name 0 i -> getStringTrackedDeviceProperty slots i = name ->
  get_device_index slots name ignore = OK (Some i).
Proof.
  intros Hp Hi. unfold get_device_index, slot_fuel.
  pose proof (passed_over_bound Hp) as Hb.
  replace (S (List.length slots)) with (i + S (List.length slots - i)) by lia.
  rewrite get_device_index_loop_skip by assumption.
  cbn [Nat.add get_device_index_loop].
  apply String.eqb_eq in Hi. now rewrite Hi.
Qed.

Lemma get_device_index_sentinel name ignore i :
  passed_over slots name 0 i -> getStringTrackedDeviceProperty slots i = "" -> getStringTrackedDeviceProperty slots i <> name ->
  get_device_index slots name ignore
  = if ignore then OK None else Err RuntimeError.
Proof.
  intros Hp Hi Hn. unfold get_device_index, slot_fuel.
  pose proof (passed_over_bound Hp) as Hb.
  replace (S (List.length slots)) with (i + S (List.length slots - i)) by lia.
  rewrite get_device_index_loop_skip by assumption.
  cbn [Nat.add get_device_index_loop].
  apply String.eqb_neq in Hn. apply String.eqb_eq in Hi.
  now rewrite Hn, Hi.
Qed.

(** Every scan stops: at a match, or at the first empty slot, which is at
    [length slots] at the latest. *)
Lemma scan_stops name :
  exists i, passed_over slots name 0 i /\ (getStringTrackedDeviceProperty slots i = name \/ getStringTrackedDeviceProperty slots i = "").
Proof.
  assert (Hgen : forall n, n <= List.length slots ->
            passed_over slots name 0 (List.length slots - n) ->
            exists i, passed_over slots name 0 i /\ (getStringTrackedDeviceProperty slots i = name \/ getStringTrackedDeviceProperty slots i = "")).
  { induction n as [|n IH]; intros Hn Hp.
    - exists (List.length slots). split.
      + now rewrite Nat.sub_0_r in Hp.
      + right. unfold getStringTrackedDeviceProperty. now apply nth_overflow.
    - set (i := List.length slots - S n) in *.
      destruct (string_dec (getStringTrackedDeviceProperty slots i) name) as [Hm|Hm]; [exists i; auto|].
      destruct (string_dec (getStringTrackedDeviceProperty slots i) "") as [He|He]; [exists i; auto|].
      apply IH; [lia|].
      intros j Hj. destruct (Nat.eq_dec j i) as [->|Hji]; [auto|].
      apply Hp. unfold i in *. lia. }
  apply (Hgen (List.length slots)); [lia|].
  rewrite Nat.sub_diag. intros j Hj. lia.
Qed.

(** The fuel given to [get_device_index] is enough. *)
Lemma get_device_index_total name ignore :
  get_device_index slots name ignore <> OutOfFuel.
Proof.
  destruct (scan_stops name) as (i & Hp & [Hm|He]).
  - rewrite (get_device_index_found ignore Hp Hm). discriminate.
  - destruct (string_dec (getStringTrackedDeviceProperty slots i) name) as [Hm|Hm].
    + rewrite (get_device_index_found ignore Hp Hm). discriminate.
    + rewrite (get_device_index_sentinel ignore Hp He Hm).
      destruct ignore; discriminate.
Qed.

End Resolver.

(** C4: the resolver scans the slots from index 0 upward; it returns the
    index of the first slot whose serial equals the requested one, and when
    a slot with an empty serial is reached before any match it returns
    [None] (NotFound) under [ignore = true] and raises under
    [ignore = false].  With slots ["A"; "B"; ""], "B" resolves to 1 and "C"
    raises when [ignore] is false. *)
Theorem get_device_index_spec (slots : list string) (name : string) (i : nat) :
  passed_over slots name 0 i ->
  (getStringTrackedDeviceProperty slots i = name ->
   forall ignore, get_device_index slots name ignore = OK (Some i))
  /\ (getStringTrackedDeviceProperty slots i = "" ->
      getStringTrackedDeviceProperty slots i <> name ->
      get_device_index slots name true = OK None
      /\ get_device_index slots name false = Err RuntimeError)
  /\ get_device_index ["A"; "B"; ""] "B" false = OK (Some 1)
  /\ get_device_index ["A"; "B"; ""] "B" true = OK (Some 1)
  /\ get_device_index ["A"; "B"; ""] "C" false = Err RuntimeError
  /\ get_device_index ["A"; "B"; ""] "C" true = OK None.
Proof.
  intros Hp. split; [|split].
  - intros Hi ignore. now apply get_device_index_found.
  - intros He Hn. split.
    + apply (get_device_index_sentinel true Hp He Hn).
    + apply (get_device_index_sentinel false Hp He Hn).
  - repeat split; reflexivity.
Qed.

Lemma get_device_index_spec_witness :
  passed_over ["A"; "B"; ""] "C" 0 2
  /\ get_device_index ["A"; "B"; ""] "C" true = OK None
  /\ get_device_index ["A"; "B"; ""] "C" false = Err RuntimeError.
Proof.
  assert (Hp : passed_over ["A"; "B"; ""] "C" 0 2).
  { intros j Hj.
    assert (Hc : j = 0 \/ j = 1) by lia.
    destruct Hc as [-> | ->]; split; discriminate. }
  split; [exact Hp|].
  apply (get_device_index_spec Hp); [reflexivity | discriminate].
Defined.

Lemma get_all_device_serial_loop_skip (slots : list string) k :
  forall fuel ret i,
    (forall j, i <= j < i + k -> getStringTrackedDeviceProperty slots j <> "") ->
    get_all_device_serial_loop (k + fuel) slots ret i
    = get_all_device_serial_loop fuel slots
        (ret ++ map (getStringTrackedDeviceProperty slots) (seq i k)) (i + k).
Proof.
  induction k as [|k IH]; intros fuel ret i Hp.
  - cbn [seq map]. now rewrite app_nil_r, Nat.add_0_r.
  - pose proof (Hp i ltac:(lia)) as He.
    cbn [Nat.add get_all_device_serial_loop seq map].
    apply String.eqb_neq in He. rewrite He, IH.
    + rewrite <- app_assoc. cbn [app]. f_equal. lia.
    + intros j Hj. apply Hp. lia.
Qed.

(** What [get_all_device_serial] returns: the serials of the slots before
    the first empty one. *)
Lemma get_all_device_serial_prefix (slots : list string) (i : nat) :
  passed_over slots "" 0 i ->
  getStringTrackedDeviceProperty slots i = "" ->
  get_all_device_serial slots
  = OK (map (getStringTrackedDeviceProperty slots) (seq 0 i)).
Proof.
  intros Hp He. pose proof (passed_over_bound Hp) as Hb.
  unfold get_all_device_serial, slot_fuel.
  replace (S (List.length slots)) with (i + S (List.length slots - i)) by lia.
  rewrite get_all_device_serial_loop_skip by (intros j Hj; apply (Hp j); lia).
  cbn [Nat.add get_all_device_serial_loop app].
  apply String.eqb_eq in He. now rewrite He.
Qed.

(** A non-empty serial that is not among the enumerated ones: the scan for
    it reaches the first empty slot without a match. *)
Lemma not_enumerated_reaches_sentinel (slots : list string) (name : string)
  (serials : list string) :
  get_all_device_serial slots = OK serials ->
  ~ In name serials -> name <> "" ->
  exists i,
    passed_over slots name 0 i
    /\ getStringTrackedDeviceProperty slots i = ""
    /\ getStringTrackedDeviceProperty slots i <> name.
Proof.
  intros Hall Hnot Hne.
  destruct (scan_stops slots "") as (i & Hp & Hi).
  assert (He : getStringTrackedDeviceProperty slots i = "") by tauto.
  rewrite (get_all_device_serial_prefix Hp He) in Hall.
  inversion Hall; subst serials. clear Hall.
  exists i. split; [|split].
  - intros j Hj. split; [|apply (Hp j); lia].
    intros Hm. apply Hnot. apply in_map_iff. exists j. split; [exact Hm|].
    apply in_seq. lia.
  - exact He.
  - rewrite He. congruence.
Qed.

(** C10: whatever [ignore] is, resolving the empty serial neither returns
    [None] nor raises: the match is tested before the sentinel, so the
    result is the index of the first empty slot, which is the number of
    serials [get_all_device_serial] enumerates. *)
Theorem get_device_index_empty_serial (slots : list string) (ignore : bool) :
  exists i,
    get_device_index slots "" ignore = OK (Some i)
    /\ getStringTrackedDeviceProperty slots i = ""
    /\ (forall j, j < i -> getStringTrackedDeviceProperty slots j <> "")
    /\ exists serials,
         get_all_device_serial slots = OK serials /\ List.length serials = i.
Proof.
  destruct (scan_stops slots "") as (i & Hp & Hi).
  assert (He : getStringTrackedDeviceProperty slots i = "") by tauto.
  exists i. split; [|split; [|split]].
  - now apply get_device_index_found.
  - exact He.
  - intros j Hj. apply (Hp j). lia.
  - exists (map (getStringTrackedDeviceProperty slots) (seq 0 i)). split.
    + now apply get_all_device_serial_prefix.
    + now rewrite length_map, length_seq.
Qed.

(* ===================================================================== *)
(** ** Pose transform *)
(* ===================================================================== *)

Lemma well_formed_rows (m : matrix) :
  well_formed m ->
  exists a0 a1 a2 a3 b0 b1 b2 b3 c0 c1 c2 c3 rest,
    m = [a0; a1; a2; a3] :: [b0; b1; b2; b3] :: [c0; c1; c2; c3] :: rest.
Proof.
  intros [[Hlo _] Hrows].
  destruct m as [|r0 [|r1 [|r2 rest]]]; cbn in Hlo; try lia.
  inversion_clear Hrows as [|? ? H0 Hrows1].
  inversion_clear Hrows1 as [|? ? H1 Hrows2].
  inversion_clear Hrows2 as [|? ? H2 _].
  destruct r0 as [|a0 [|a1 [|a2 [|a3 [|]]]]]; try discriminate.
  destruct r1 as [|b0 [|b1 [|b2 [|b3 [|]]]]]; try discriminate.
  destruct r2 as [|c0 [|c1 [|c2 [|c3 [|]]]]]; try discriminate.
  now exists a0, a1, a2, a3, b0, b1, b2, b3, c0, c1, c2, c3, rest.
Qed.

Lemma math_asin_in_domain `{Libm} (x : float) :
  in_asin_domain x = true -> math_asin x = OK (libm_asin x).
Proof.
  unfold math_asin, in_asin_domain. intros ->. now destruct (PrimFloat.is_nan x).
Qed.

Lemma get_position_entries (m : matrix) :
  well_formed m -> get_position m = OK (entry m 0 3, entry m 1 3, entry m 2 3).
Proof.
  intros Hwf. destruct (well_formed_rows Hwf)
    as (a0 & a1 & a2 & a3 & b0 & b1 & b2 & b3 & c0 & c1 & c2 & c3 & rest & ->).
  reflexivity.
Qed.

(** The extraction on a well-formed matrix, with the subscripts resolved:
    what is left is the domain of [asin], the branch and the divisors. *)
Lemma get_euler_angle_entries `{Libm} (m : matrix) :
  well_formed m ->
  get_euler_angle m =
  (rot_y <-- math_asin (entry m 0 2) ;;
   if float_ne_int rot_y 0 then
     qx <-- py_truediv (PrimFloat.opp (entry m 1 2)) (entry m 2 2) ;;
     qz <-- py_truediv (PrimFloat.opp (entry m 0 1)) (entry m 0 0) ;;
     OK (PyFloat (math_atan qx), PyFloat rot_y, PyFloat (math_atan qz))
   else
     qx <-- py_truediv (entry m 2 1) (entry m 1 1) ;;
     OK (PyFloat (math_atan qx), PyFloat rot_y, PyInt 0))%result.
Proof.
  intros Hwf. destruct (well_formed_rows Hwf)
    as (a0 & a1 & a2 & a3 & b0 & b1 & b2 & b3 & c0 & c1 & c2 & c3 & rest & ->).
  reflexivity.
Qed.

Lemma py_truediv_nonzero (a b : float) :
  is_zero b = false -> py_truediv a b = OK (PrimFloat.div a b).
Proof. unfold py_truediv, is_zero. now intros ->. Qed.

Lemma py_truediv_zero (a b : float) :
  is_zero b = true -> py_truediv a b = Err ZeroDivisionError.
Proof. unfold py_truediv, is_zero. now intros ->. Qed.

Lemma float_ne_int_0 (x : float) : float_ne_int x 0 = negb (is_zero x).
Proof. reflexivity. Qed.

Lemma well_formed_4x4 (a0 a1 a2 a3 b0 b1 b2 b3 c0 c1 c2 c3 d0 d1 d2 d3 : float) :
  well_formed [ [a0; a1; a2; a3]; [b0; b1; b2; b3]; [c0; c1; c2; c3]; [d0; d1; d2; d3] ].
Proof. split; [cbn; lia | repeat constructor]. Qed.

(** C2: for every math library and every well-formed pose
    matrix [m] with [m[0][2]] in [-1, 1], the position is
    [(m[0][3], m[1][3], m[2][3])] and, provided the divisors of the branch
    taken are not zero, the extraction returns [rotY = asin(m[0][2])];
    [rotX = atan(-m[1][2] / m[2][2])] and [rotZ = atan(-m[0][1] / m[0][0])]
    when [rotY != 0]; [rotX = atan(m[2][1] / m[1][1])] and the int [0] for
    [rotZ] when [rotY == 0], which for an [asin] that vanishes exactly at
    zero is the case [m[0][2] == 0]. *)
Theorem pose_transform_spec `{Libm} (m : matrix) :
  well_formed m ->
  in_asin_domain (entry m 0 2) = true ->
  get_position m = OK (entry m 0 3, entry m 1 3, entry m 2 3)
  /\ (is_zero (libm_asin (entry m 0 2)) = false ->
      is_zero (entry m 2 2) = false -> is_zero (entry m 0 0) = false ->
      get_euler_angle m
      = OK (PyFloat (libm_atan (PrimFloat.div (PrimFloat.opp (entry m 1 2)) (entry m 2 2))),
            PyFloat (libm_asin (entry m 0 2)),
            PyFloat (libm_atan (PrimFloat.div (PrimFloat.opp (entry m 0 1)) (entry m 0 0)))))
  /\ (is_zero (libm_asin (entry m 0 2)) = true ->
      is_zero (entry m 1 1) = false ->
      get_euler_angle m
      = OK (PyFloat (libm_atan (PrimFloat.div (entry m 2 1) (entry m 1 1))),
            PyFloat (libm_asin (entry m 0 2)),
            PyInt 0))
  /\ (is_zero (libm_asin (entry m 0 2)) = is_zero (entry m 0 2) ->
      is_zero (entry m 0 2) = true ->
      is_zero (entry m 1 1) = false ->
      get_euler_angle m
      = OK (PyFloat (libm_atan (PrimFloat.div (entry m 2 1) (entry m 1 1))),
            PyFloat (libm_asin (entry m 0 2)),
            PyInt 0)).
Proof.
  intros Hwf Hdom.
  assert (Hdeg : is_zero (libm_asin (entry m 0 2)) = true ->
                 is_zero (entry m 1 1) = false ->
                 get_euler_angle m
                 = OK (PyFloat (libm_atan (PrimFloat.div (entry m 2 1) (entry m 1 1))),
                       PyFloat (libm_asin (entry m 0 2)),
                       PyInt 0)).
  { intros Hy H11.
    rewrite (get_euler_angle_entries Hwf), (math_asin_in_domain _ Hdom).
    cbn [bindR]. rewrite float_ne_int_0, Hy. cbn [negb].
    now rewrite (py_truediv_nonzero _ H11). }
  split; [now apply get_position_entries|].
  split; [|split].
  - intros Hy H22 H00.
    rewrite (get_euler_angle_entries Hwf), (math_asin_in_domain _ Hdom).
    cbn [bindR]. rewrite float_ne_int_0, Hy. cbn [negb].
    now rewrite (py_truediv_nonzero _ H22), (py_truediv_nonzero _ H00).
  - exact Hdeg.
  - intros Hsame H02. apply Hdeg. now rewrite Hsame.
Qed.

Lemma pose_transform_spec_witness :
  well_formed pose_yawed
  /\ in_asin_domain (entry pose_yawed 0 2) = true
  /\ is_zero (libm_asin (Libm := maclaurin_libm) (entry pose_yawed 0 2)) = false
  /\ (exists rx ry rz,
        get_euler_angle (H := maclaurin_libm) pose_yawed = OK (PyFloat rx, PyFloat ry, PyFloat rz))
  /\ well_formed pose_level
  /\ in_asin_domain (entry pose_level 0 2) = true
  /\ is_zero (entry pose_level 0 2) = true
  /\ (exists rx ry,
        get_euler_angle (H := maclaurin_libm) pose_level = OK (PyFloat rx, PyFloat ry, PyInt 0)).
Proof.
  pose proof (well_formed_4x4 0.96 0 0.28 0.1 0 1 0 1.2 (-0.28) 0 0.96 0.3 0 0 0 1 : well_formed pose_yawed)%float as Wy.
  pose proof (well_formed_4x4 1 0 0 0.1 0 1 0 1.2 0 0 1 0.3 0 0 0 1 : well_formed pose_level)%float as Wl.
  split; [exact Wy|]. split; [reflexivity|]. split; [reflexivity|].
  split.
  { destruct (pose_transform_spec (H := maclaurin_libm) Wy eq_refl) as (_ & Hnd & _).
    eexists _, _, _. apply Hnd; reflexivity. }
  split; [exact Wl|]. split; [reflexivity|]. split; [reflexivity|].
  destruct (pose_transform_spec (H := maclaurin_libm) Wl eq_refl) as (_ & _ & _ & Hz).
  eexists _, _. apply Hz; reflexivity.
Defined.

(** On these two poses every branch of the extraction divides by zero,
    whatever the math library computes. *)
Lemma zero_divisors_raise `{Libm} (m : matrix) :
  well_formed m -> in_asin_domain (entry m 0 2) = true ->
  is_zero (entry m 2 2) = true -> is_zero (entry m 1 1) = true ->
  get_euler_angle m = Err ZeroDivisionError.
Proof.
  intros Hwf Hdom H22 H11.
  rewrite (get_euler_angle_entries Hwf), (math_asin_in_domain _ Hdom).
  cbn [bindR]. destruct (float_ne_int (libm_asin (entry m 0 2)) 0).
  - now rewrite (py_truediv_zero _ H22).
  - now rewrite (py_truediv_zero _ H11).
Qed.

(** C2, counterexample: [pose_z_horizontal] is a well-formed 4x4 pose with
    [m[0][2] = 0.6], yet the extraction returns no angles: [m[2][2]] and
    [m[1][1]] are zero and the division raises, whatever the math library.
    So it does at the gimbal lock [m[0][2] = 1], where [m[2][2]] and
    [m[0][0]] are zero. *)
Lemma pose_transform_no_result_z_horizontal :
  well_formed pose_z_horizontal
  /\ in_asin_domain (entry pose_z_horizontal 0 2) = true
  /\ get_euler_angle (H := maclaurin_libm) pose_z_horizontal = Err ZeroDivisionError
  /\ in_asin_domain (entry pose_yawed_quarter 0 2) = true
  /\ get_euler_angle (H := maclaurin_libm) pose_yawed_quarter = Err ZeroDivisionError
  /\ ~ (exists (L : Libm) r, get_euler_angle (H := L) pose_z_horizontal = OK r).
Proof.
  pose proof (well_formed_4x4 0.8 0 0.6 0.1 (-0.6) 0 0.8 1.2 0 (-1) 0 0.3 0 0 0 1 : well_formed pose_z_horizontal)%float as W.
  split; [exact W|]. split; [reflexivity|]. split; [reflexivity|].
  split; [reflexivity|]. split; [reflexivity|].
  intros (L & r & Hr).
  rewrite (zero_divisors_raise (H := L) W) in Hr by reflexivity.
  discriminate.
Qed.

(** C8: for every math library and every well-formed pose
    matrix with [m[0][2]] in [-1, 1], the extraction raises
    [ZeroDivisionError] when a divisor of the branch taken is zero:
    [m[2][2]] or [m[0][0]] when [rotY != 0], [m[1][1]] when [rotY == 0].
    Python float division raises on a zero divisor; no infinity or NaN
    reaches [atan]. *)
Theorem get_euler_angle_zero_divisor `{Libm} (m : matrix) :
  well_formed m ->
  in_asin_domain (entry m 0 2) = true ->
  (is_zero (libm_asin (entry m 0 2)) = false ->
   is_zero (entry m 2 2) || is_zero (entry m 0 0) = true ->
   get_euler_angle m = Err ZeroDivisionError)
  /\ (is_zero (libm_asin (entry m 0 2)) = true ->
      is_zero (entry m 1 1) = true ->
      get_euler_angle m = Err ZeroDivisionError).
Proof.
  intros Hwf Hdom. split.
  - intros Hy Hd.
    rewrite (get_euler_angle_entries Hwf), (math_asin_in_domain _ Hdom).
    cbn [bindR]. rewrite float_ne_int_0, Hy. cbn [negb].
    destruct (is_zero (entry m 2 2)) eqn:H22.
    + now rewrite (py_truediv_zero _ H22).
    + rewrite (py_truediv_nonzero _ H22). cbn [bindR orb] in *.
      now rewrite (py_truediv_zero _ Hd).
  - intros Hy H11.
    rewrite (get_euler_angle_entries Hwf), (math_asin_in_domain _ Hdom).
    cbn [bindR]. rewrite float_ne_int_0, Hy. cbn [negb].
    now rewrite (py_truediv_zero _ H11).
Qed.

Lemma get_euler_angle_zero_divisor_witness :
  get_euler_angle (H := maclaurin_libm) pose_z_horizontal = Err ZeroDivisionError
  /\ get_euler_angle (H := maclaurin_libm) pose_pitched_quarter = Err ZeroDivisionError.
Proof.
  pose proof (well_formed_4x4 0.8 0 0.6 0.1 (-0.6) 0 0.8 1.2 0 (-1) 0 0.3 0 0 0 1 : well_formed pose_z_horizontal)%float as Wz.
  pose proof (well_formed_4x4 1 0 0 0.1 0 0 (-1) 1.2 0 1 0 0.3 0 0 0 1 : well_formed pose_pitched_quarter)%float as Wp.
  split.
  - apply (proj1 (get_euler_angle_zero_divisor (H := maclaurin_libm) Wz eq_refl)); reflexivity.
  - apply (proj2 (get_euler_angle_zero_divisor (H := maclaurin_libm) Wp eq_refl)); reflexivity.
Defined.

(** C8, counterexample: on the pose of a tracker pitched by a quarter turn
    ([m[0][2] = 0], [m[1][1] = 0], [m[2][2] = 0]) the extraction is not
    total: it raises [ZeroDivisionError] for every math library. *)
Lemma get_euler_angle_fails_pitched_quarter :
  well_formed pose_pitched_quarter
  /\ is_zero (entry pose_pitched_quarter 1 1) = true
  /\ get_euler_angle (H := maclaurin_libm) pose_pitched_quarter = Err ZeroDivisionError
  /\ ~ (exists (L : Libm) r, get_euler_angle (H := L) pose_pitched_quarter = OK r).
Proof.
  pose proof (well_formed_4x4 1 0 0 0.1 0 0 (-1) 1.2 0 1 0 0.3 0 0 0 1 : well_formed pose_pitched_quarter)%float as W.
  split; [exact W|]. split; [reflexivity|]. split; [reflexivity|].
  intros (L & r & Hr).
  rewrite (zero_divisors_raise (H := L) W) in Hr by reflexivity.
  discriminate.
Qed.

(* ===================================================================== *)
(** ** Startup *)
(* ===================================================================== *)

Lemma resolve_devices_total (slots : list string) (ignore : bool) (use : list string) :
  forall acc, resolve_devices slots ignore use acc <> OutOfFuel.
Proof.
  induction use as [|device rest IH]; intros acc; cbn [resolve_devices].
  - discriminate.
  - pose proof (get_device_index_total slots device ignore) as Ht.
    destruct (get_device_index slots device ignore) as [[i|]|e|]; cbn [bindR].
    + apply IH.
    + apply IH.
    + discriminate.
    + contradiction.
Qed.

Lemma valid_device_count_iff (n : nat) : valid_device_count n = true <-> 1 <= n <= 8.
Proof.
  unfold valid_device_count. rewrite andb_true_iff, !Nat.ltb_lt. lia.
Qed.

(** The first [try] block touches neither the transport nor the poses. *)
Lemma startup_unfold (w : world) (cfg : config) (st : state) :
  startup w cfg st =
  (match client_fault w with
   | Some e => Err e
   | None =>
       match resolve_devices (device_slots w) (ignore_not_found_device cfg)
               (use_device cfg) [] with
       | OK device_indexes =>
           if valid_device_count (List.length device_indexes)
           then OK device_indexes else Err AssertionError
       | Err e => Err e
       | OutOfFuel => OutOfFuel
       end
   end, st).
Proof.
  unfold startup, SimpleUDPClient, bind, lift, py_assert, ret, raise, valid_device_count.
  destruct (client_fault w); [reflexivity|].
  destruct (resolve_devices _ _ _ _) as [idx| |]; try reflexivity.
  destruct (_ && _); reflexivity.
Qed.

Lemma startup_total (w : world) (cfg : config) (st : state) :
  fst (startup w cfg st) <> OutOfFuel.
Proof.
  rewrite startup_unfold. cbn [fst].
  destruct (client_fault w); [discriminate|].
  pose proof (@resolve_devices_total (device_slots w) (ignore_not_found_device cfg)
                (use_device cfg) []) as Ht.
  destruct (resolve_devices _ _ _ _) as [idx| |]; try discriminate; try contradiction.
  destruct (valid_device_count _); discriminate.
Qed.

(** The streaming loop only ends at line 106 or line 143. *)
Lemma stream_loop_outcome `{Libm} (w : world) (idx : list nat) (yd : pynum) (fuel : nat) :
  forall t st,
    match fst (stream_loop fuel w idx yd t st) with
    | Terminated | LoopFailed _ | StillRunning => True
    | StartupFailed _ | CalibrationFailed _ => False
    end.
Proof.
  induction fuel as [|fuel IH]; intros t st; cbn [stream_loop]; [exact I|].
  destruct (thread_terminate w t); [exact I|].
  destruct (tick w idx yd st) as [[[]|e|] st']; cbn [fst]; try exact I.
  apply IH.
Qed.

(** C5: when the resolved index list has length 0 or more than 8, the run
    ends in the startup failure branch, with the [AssertionError] of the
    device-count [assert] unless creating the client already raised, and
    nothing was sent and no pose was read; a run reaches the streaming loop
    only with between 1 and 8 resolved devices. *)
Theorem invalid_device_count `{Libm} (fuel : nat) (w : world) (cfg : config)
  (st : state) (device_indexes : list nat) :
  resolve_devices (device_slots w) (ignore_not_found_device cfg) (use_device cfg) []
  = OK device_indexes ->
  (List.length device_indexes = 0 \/ 8 < List.length device_indexes ->
   exists e,
     run_tracker_server fuel w cfg st = (StartupFailed e, error_handling e st)
     /\ (client_fault w = None -> e = AssertionError)
     /\ sent (error_handling e st) = sent st
     /\ pose_reads (error_handling e st) = pose_reads st)
  /\ (reached_streaming (fst (run_tracker_server fuel w cfg st)) = true ->
      1 <= List.length device_indexes <= 8).
Proof.
  intros Hres. unfold run_tracker_server. rewrite startup_unfold, Hres. split.
  - intros Hlen.
    assert (Hv : valid_device_count (List.length device_indexes) = false).
    { apply not_true_is_false. rewrite valid_device_count_iff. lia. }
    rewrite Hv. destruct (client_fault w) as [e|].
    + exists e. repeat split. discriminate.
    + exists AssertionError. repeat split.
  - destruct (client_fault w) as [e|]; [discriminate|].
    destruct (valid_device_count (List.length device_indexes)) eqn:Hv.
    + intros _. now apply valid_device_count_iff.
    + discriminate.
Qed.

Lemma invalid_device_count_witness :
  fst (run_tracker_server (H := maclaurin_libm) 3 studio no_device initial_state)
  = StartupFailed AssertionError
  /\ 1 <= List.length [1; 2] <= 8.
Proof.
  split.
  - destruct (invalid_device_count (H := maclaurin_libm) 3 studio no_device
                initial_state (device_indexes := []) eq_refl) as [Hbad _].
    destruct (Hbad (or_introl eq_refl)) as (e & Hrun & He & _).
    rewrite Hrun, (He eq_refl). reflexivity.
  - apply (invalid_device_count (H := maclaurin_libm) 3 studio two_trackers
             initial_state (device_indexes := [1; 2]) eq_refl).
    reflexivity.
Defined.

(* ===================================================================== *)
(** ** The streaming loop: termination and failure *)
(* ===================================================================== *)

Lemma stream_loop_terminated_flag `{Libm} (w : world) (idx : list nat) (yd : pynum)
  (fuel : nat) :
  forall t st st',
    stream_loop fuel w idx yd t st = (Terminated, st') ->
    exists t',
      t <= t' < t + fuel
      /\ thread_terminate w t' = true
      /\ (forall u, t <= u < t' -> thread_terminate w u = false).
Proof.
  induction fuel as [|fuel IH]; intros t st st' Hrun; cbn [stream_loop] in Hrun.
  - discriminate.
  - destruct (thread_terminate w t) eqn:Hflag.
    + exists t. repeat split; try lia. exact Hflag.
    + destruct (tick w idx yd st) as [[[]|e|] st1]; try discriminate.
      destruct (IH _ _ _ Hrun) as (t' & Hrange & Hset & Hclear).
      exists t'. repeat split; try lia; [exact Hset|].
      intros u Hu. destruct (Nat.eq_dec u t) as [->|Hne]; [exact Hflag|].
      apply Hclear. lia.
Qed.

Lemma tick_read_failure `{Libm} (w : world) (idx : list nat) (yd : pynum)
  (st : state) (e : exn) :
  last_poses w (pose_reads st) = inl e ->
  tick w idx yd st = (Err e, after_pose_read st).
Proof.
  intros Hread. unfold tick, bind, getLastPoses. now rewrite Hread.
Qed.

Lemma tick_devices_failure `{Libm} (w : world) (idx : list nat) (yd : pynum)
  (st st' : state) (poses : list matrix) (e : exn) :
  last_poses w (pose_reads st) = inr poses ->
  stream_devices w yd poses 0 idx (after_pose_read st) = (Err e, st') ->
  tick w idx yd st = (Err e, st').
Proof.
  intros Hread Hdev. unfold tick, bind, getLastPoses. rewrite Hread.
  exact Hdev.
Qed.

Lemma stream_device_transform_failure `{Libm} (w : world) (yd : pynum)
  (poses : list matrix) (i j : nat) (st : state) (m : matrix) (e : exn) :
  nth_error poses j = Some m -> well_formed m -> get_euler_angle m = Err e ->
  stream_device w yd poses i j st = (Err e, st).
Proof.
  intros Hm Hwf Hrot. unfold stream_device, bind, lift.
  now rewrite (py_index_some _ _ Hm), (get_position_entries Hwf), Hrot.
Qed.

Lemma stream_device_send_failure `{Libm} (w : world) (yd : pynum)
  (poses : list matrix) (i j : nat) (st : state)
  (chan : matrix * (pynum * pynum * pynum)) (e : exn) :
  extracted poses j chan ->
  send_fault w (List.length (sent st)) = Some e ->
  stream_device w yd poses i j st = (Err e, st).
Proof.
  destruct chan as [m [[rx ry] rz]]. intros (Hm & Hwf & Hrot) Hsend.
  cbn [fst snd] in *. unfold stream_device, bind, lift.
  rewrite (py_index_some _ _ Hm), (get_position_entries Hwf), Hrot.
  now rewrite (send_message_fault _ _ _ _ Hsend).
Qed.

(* ===================================================================== *)
(** ** Calibration *)
(* ===================================================================== *)

Lemma calibrate_unfold (w : world) (cfg : config) (std : string) (st : state) :
  calibrate w cfg std st =
  match get_device_index (device_slots w) std false with
  | Err e => (Err e, st)
  | OutOfFuel => (OutOfFuel, st)
  | OK i =>
      match last_poses w (pose_reads st) with
      | inl e => (Err e, after_pose_read st)
      | inr poses =>
          match i with
          | None => (Err TypeError, after_pose_read st)
          | Some i =>
              ((pose <-- py_index poses i ;; r1 <-- py_index pose 1 ;;
                y <-- py_index r1 3 ;;
                OK (PyFloat (PrimFloat.add (PrimFloat.mul (float_of_int (-1)) y)
                               (delta cfg))))%result,
               after_pose_read st)
          end
      end
  end.
Proof.
  unfold calibrate, bind, lift, getLastPoses, raise, ret, after_pose_read.
  destruct (get_device_index (device_slots w) std false) as [i|e|]; try reflexivity.
  destruct (last_poses w (pose_reads st)) as [e|poses]; [reflexivity|].
  destruct i as [i|]; [|reflexivity].
  destruct (py_index poses i) as [pose|e|]; try reflexivity. cbn [bindR].
  destruct (py_index pose 1) as [r1|e|]; try reflexivity. cbn [bindR].
  destruct (py_index r1 3) as [y|e|]; reflexivity.
Qed.

(** C3: with a reference device configured, resolved to slot [i], the
    offset is [-Y + delta] for the height [Y = poses[i][1][3]] of the one
    bulk pose read made before the loop (Y = 1.2 and delta = 0.05 give
    -1.15); with none configured the offset is the int [0], which adds as
    the float 0.0, and no pose is read.  Either way the loop starts at its
    first iteration with that offset and nothing sent, and keeps it. *)
Theorem calibration_offset `{Libm} (w : world) (cfg : config) (st : state) :
  (forall std i poses pose row Y,
      standard_device cfg = Some std ->
      get_device_index (device_slots w) std false = OK (Some i) ->
      last_poses w (pose_reads st) = inr poses ->
      nth_error poses i = Some pose ->
      nth_error pose 1 = Some row ->
      nth_error row 3 = Some Y ->
      y_delta_of w cfg st = (OK (PyFloat (offset_from Y (delta cfg))), after_pose_read st))
  /\ offset_from 1.2%float 0.05%float = (-1.15)%float
  /\ (standard_device cfg = None ->
      y_delta_of w cfg st = (OK (PyInt 0), st)
      /\ to_float (PyInt 0) = 0%float)
  /\ (forall fuel device_indexes y_delta st2,
        startup w cfg st = (OK device_indexes, st) ->
        y_delta_of w cfg st = (OK y_delta, st2) ->
        run_tracker_server fuel w cfg st
        = stream_loop fuel w device_indexes y_delta 0 st2
        /\ sent st2 = sent st
        /\ pose_reads st2
           = pose_reads st + match standard_device cfg with Some _ => 1 | None => 0 end).
Proof.
  split; [|split; [|split]].
  - intros std i poses pose row Y Hstd Hres Hread Hpose Hrow HY.
    unfold y_delta_of. rewrite Hstd, calibrate_unfold, Hres, Hread.
    rewrite (py_index_some _ _ Hpose). cbn [bindR].
    rewrite (py_index_some _ _ Hrow). cbn [bindR].
    rewrite (py_index_some _ _ HY). cbn [bindR].
    now rewrite mul_minus_one.
  - reflexivity.
  - intros Hnone. unfold y_delta_of. rewrite Hnone. split; reflexivity.
  - intros fuel idx yd st2 Hstart Hyd.
    unfold run_tracker_server. rewrite Hstart, Hyd. split; [reflexivity|].
    unfold y_delta_of in Hyd. destruct (standard_device cfg) as [std|].
    + rewrite calibrate_unfold in Hyd.
      destruct (get_device_index (device_slots w) std false) as [i|e|];
        try discriminate.
      destruct (last_poses w (pose_reads st)) as [e|poses]; [discriminate|].
      destruct i as [i|]; [|discriminate].
      inversion Hyd; subst. cbn. split; [reflexivity | lia].
    + inversion Hyd; subst. split; [reflexivity | lia].
Qed.

Lemma calibration_offset_witness :
  y_delta_of studio two_trackers_calibrated initial_state
  = (OK (PyFloat (-1.15)%float), after_pose_read initial_state)
  /\ y_delta_of studio two_trackers initial_state = (OK (PyInt 0), initial_state)
  /\ run_tracker_server (H := maclaurin_libm) 3 studio two_trackers_calibrated initial_state
     = stream_loop (H := maclaurin_libm) 3 studio [1; 2] (PyFloat (-1.15)%float) 0
         (after_pose_read initial_state).
Proof.
  destruct (calibration_offset (H := maclaurin_libm) studio two_trackers_calibrated
              initial_state) as (Hcal & _ & _ & Hrun).
  destruct (calibration_offset (H := maclaurin_libm) studio two_trackers
              initial_state) as (_ & _ & Hnone & _).
  split; [|split].
  - apply (Hcal "HMD" 0 studio_poses pose_reference
             [0; 1; 0; 1.2]%float 1.2%float); reflexivity.
  - apply Hnone. reflexivity.
  - apply Hrun; reflexivity.
Defined.

(* ===================================================================== *)
(** ** A reference device that is not plugged in *)
(* ===================================================================== *)

Lemma missing_reference_calibrate (w : world) (cfg : config) (st : state)
  (std : string) (i : nat) :
  passed_over (device_slots w) std 0 i ->
  getStringTrackedDeviceProperty (device_slots w) i = "" ->
  getStringTrackedDeviceProperty (device_slots w) i <> std ->
  calibrate w cfg std st = (Err RuntimeError, st).
Proof.
  intros Hp He Hne.
  pose proof (get_device_index_sentinel false Hp He Hne) as Hres.
  change (get_device_index (device_slots w) std false = Err RuntimeError) in Hres.
  now rewrite calibrate_unfold, Hres.
Qed.

Lemma startup_state (w : world) (cfg : config) (st : state) :
  snd (startup w cfg st) = st.
Proof. now rewrite startup_unfold. Qed.

(** C9: when a non-empty serial is configured as reference device and is
    not among the serials the runtime enumerates, the resolution made for
    the calibration raises, because it is made with [ignore = false];
    whatever [ignore_not_found_device] is, the run ends in a failure
    branch before the streaming loop, with nothing sent and no pose
    read. *)
Theorem missing_reference_is_fatal `{Libm} (fuel : nat) (w : world) (cfg : config)
  (st : state) (std : string) (serials : list string) :
  standard_device cfg = Some std ->
  std <> "" ->
  get_all_device_serial (device_slots w) = OK serials ->
  ~ In std serials ->
  get_device_index (device_slots w) std false = Err RuntimeError
  /\ calibrate w cfg std st = (Err RuntimeError, st)
  /\ (forall device_indexes,
        startup w cfg st = (OK device_indexes, st) ->
        run_tracker_server fuel w cfg st
        = (CalibrationFailed RuntimeError, error_handling RuntimeError st))
  /\ reached_streaming (fst (run_tracker_server fuel w cfg st)) = false
  /\ sent (snd (run_tracker_server fuel w cfg st)) = sent st
  /\ pose_reads (snd (run_tracker_server fuel w cfg st)) = pose_reads st.
Proof.
  intros Hstd Hne Hall Hnot.
  destruct (@not_enumerated_reaches_sentinel _ std serials Hall Hnot Hne)
    as (i & Hp & He & Hm).
  pose proof (@missing_reference_calibrate w cfg st std i Hp He Hm) as Hcal.
  split; [exact (get_device_index_sentinel false Hp He Hm)|].
  split; [exact Hcal|].
  assert (Hrun : forall device_indexes,
             startup w cfg st = (OK device_indexes, st) ->
             run_tracker_server fuel w cfg st
             = (CalibrationFailed RuntimeError, error_handling RuntimeError st)).
  { intros idx Hstart. unfold run_tracker_server, y_delta_of.
    now rewrite Hstart, Hstd, Hcal. }
  split; [exact Hrun|].
  pose proof (startup_total w cfg st) as Htot.
  pose proof (startup_state w cfg st) as Hst.
  destruct (startup w cfg st) as [[idx|e|] st1] eqn:Hstart;
    cbn [fst snd] in Htot, Hst; subst st1.
  - rewrite (Hrun idx eq_refl). repeat split.
  - unfold run_tracker_server. rewrite Hstart. repeat split.
  - now contradiction Htot.
Qed.

Lemma missing_reference_is_fatal_witness :
  run_tracker_server (H := maclaurin_libm) 3 studio missing_reference initial_state
  = (CalibrationFailed RuntimeError, error_handling RuntimeError initial_state).
Proof.
  assert (Hnot : ~ In "LHR-Z" ["HMD"; "LHR-A"; "LHR-B"]).
  { intros [Hc | [Hc | [Hc | []]]]; discriminate. }
  destruct (missing_reference_is_fatal (H := maclaurin_libm) 3 studio missing_reference
              initial_state (std := "LHR-Z") (serials := ["HMD"; "LHR-A"; "LHR-B"])
              eq_refl ltac:(discriminate) eq_refl Hnot) as (_ & _ & Hrun & _).
  apply (Hrun [1; 2]). reflexivity.
Defined.

(** C9, counterexample: with the reference device left blank the serial
    configured is the empty string, which is not among the enumerated
    serials; yet no startup failure follows: the empty serial resolves to
    the first empty slot, the offset is taken from that slot's pose and the
    run streams until the operator ends it. *)
Lemma blank_reference_streams :
  standard_device blank_reference = Some ""
  /\ get_all_device_serial (device_slots studio) = OK ["HMD"; "LHR-A"; "LHR-B"]
  /\ ~ In "" ["HMD"; "LHR-A"; "LHR-B"]
  /\ get_device_index (device_slots studio) "" false = OK (Some 3)
  /\ y_delta_of studio blank_reference initial_state
     = (OK (PyFloat 0.05%float), after_pose_read initial_state)
  /\ fst (run_tracker_server (H := maclaurin_libm) 5 studio blank_reference initial_state)
     = Terminated
  /\ List.length
       (sent (snd (run_tracker_server (H := maclaurin_libm) 5 studio blank_reference
                     initial_state))) = 16.
Proof.
  split; [reflexivity|]. split; [reflexivity|]. split.
  { intros [Hc | [Hc | [Hc | []]]]; discriminate. }
  repeat split; reflexivity.
Qed.

(* ===================================================================== *)
(** ** The messages of one iteration *)
(* ===================================================================== *)

Lemma tick_messages_length (ns : string) (offset : pynum) chans :
  forall n, List.length (tick_messages ns offset n chans) = 4 * List.length chans.
Proof.
  induction chans as [|[m [[rx ry] rz]] rest IH]; intros n; [reflexivity|].
  cbn [tick_messages channel_messages]. rewrite length_app, IH. cbn. lia.
Qed.

Lemma stream_device_ok `{Libm} (w : world) (yd : pynum) (poses : list matrix)
  (i j : nat) (st : state) (chan : matrix * (pynum * pynum * pynum)) :
  extracted poses j chan ->
  (forall n, List.length (sent st) <= n < List.length (sent st) + 4 ->
             send_fault w n = None) ->
  stream_device w yd poses i j st
  = (OK tt, push (channel_messages "/tracking/" yd (S i) (fst chan) (snd chan)) st).
Proof.
  destruct chan as [m [[rx ry] rz]]. intros (Hm & Hwf & Hrot) Hsend.
  cbn [fst snd] in *.
  unfold stream_device, bind, lift.
  rewrite (py_index_some _ _ Hm), (get_position_entries Hwf), Hrot.
  rewrite Nat.add_1_r.
  rewrite send_message_ok by (apply Hsend; lia).
  rewrite send_message_ok by (apply Hsend; cbn; rewrite length_app; cbn; lia).
  rewrite send_message_ok
    by (apply Hsend; cbn; rewrite !length_app; cbn; lia).
  rewrite send_message_ok
    by (apply Hsend; cbn; rewrite !length_app; cbn; lia).
  rewrite !push_push. reflexivity.
Qed.

Lemma stream_devices_ok `{Libm} (w : world) (yd : pynum) (poses : list matrix)
  (idx : list nat) chans :
  Forall2 (extracted poses) idx chans ->
  forall i st,
    (forall n, List.length (sent st) <= n < List.length (sent st) + 4 * List.length idx ->
               send_fault w n = None) ->
    stream_devices w yd poses i idx st
    = (OK tt, push (tick_messages "/tracking/" yd (S i) chans) st).
Proof.
  induction 1 as [|j chan idx chans Hj _ IH]; intros i st Hsend.
  - cbn. now rewrite push_nil.
  - cbn [stream_devices tick_messages]. unfold bind.
    rewrite (@stream_device_ok _ w yd poses i j st chan Hj)
      by (intros n Hn; apply Hsend; cbn [List.length]; lia).
    rewrite IH.
    + rewrite push_push. now destruct chan as [m rot].
    + intros n Hn. apply Hsend. revert Hn.
      destruct chan as [m [[rx ry] rz]].
      cbn [push sent List.length channel_messages fst snd].
      rewrite length_app. cbn [List.length]. lia.
Qed.

Lemma tick_messages_group (ns : string) (offset : pynum) chans :
  forall n k m rot,
    nth_error chans k = Some (m, rot) ->
    firstn 4 (skipn (4 * k) (tick_messages ns offset n chans))
    = channel_messages ns offset (n + k) m rot.
Proof.
  induction chans as [|[m0 [[rx0 ry0] rz0]] rest IH]; intros n k m rot Hk.
  - destruct k; discriminate.
  - destruct k as [|k].
    + inversion Hk; subst. rewrite Nat.add_0_r. reflexivity.
    + cbn [nth_error] in Hk.
      replace (4 * S k) with (S (S (S (S (4 * k))))) by lia.
      cbn [tick_messages channel_messages app skipn].
      rewrite (IH (S n) k m rot Hk). f_equal. lia.
Qed.

Lemma Forall2_nth_error_l {A B : Type} (R : A -> B -> Prop) (xs : list A) (ys : list B) :
  Forall2 R xs ys ->
  forall k x, nth_error xs k = Some x -> exists y, nth_error ys k = Some y /\ R x y.
Proof.
  induction 1 as [|x0 y0 xs ys Hxy _ IH]; intros k x Hk.
  - destruct k; discriminate.
  - destruct k as [|k].
    + inversion Hk; subst. now exists y0.
    + now apply IH.
Qed.

(** C1: in an iteration that runs to its end (the bulk read
    gives the poses, each of the k resolved devices has a well-formed pose
    whose angles are extracted, no send raises), exactly 4*k messages are
    handed to the transport, grouped by channel in the order of the
    resolved list, channel n = position + 1, each group being
    [/tracking/trackers/n/position] with [-x, y + offset, z], then
    [/tracking/trackers/n/rotation/x], [.../rotation/y], [.../rotation/z]
    with the one angle each. *)
Theorem tick_emits_channels `{Libm} (w : world) (device_indexes : list nat)
  (y_delta : pynum) (st : state) (poses : list matrix)
  (chans : list (matrix * (pynum * pynum * pynum))) :
  last_poses w (pose_reads st) = inr poses ->
  Forall2 (extracted poses) device_indexes chans ->
  (forall n,
      List.length (sent st) <= n < List.length (sent st) + 4 * List.length device_indexes ->
      send_fault w n = None) ->
  tick w device_indexes y_delta st
  = (OK tt, push (tick_messages "/tracking/" y_delta 1 chans) (after_pose_read st))
  /\ List.length (tick_messages "/tracking/" y_delta 1 chans)
     = 4 * List.length device_indexes
  /\ (forall k j,
        nth_error device_indexes k = Some j ->
        exists m rot,
          nth_error poses j = Some m
          /\ get_euler_angle m = OK rot
          /\ firstn 4 (skipn (4 * k) (tick_messages "/tracking/" y_delta 1 chans))
             = channel_messages "/tracking/" y_delta (k + 1) m rot).
Proof.
  intros Hread Hext Hsend. split; [|split].
  - unfold tick, bind, getLastPoses. rewrite Hread.
    apply (stream_devices_ok w y_delta Hext 0 (after_pose_read st) Hsend).
  - rewrite tick_messages_length. f_equal. symmetry.
    exact (Forall2_length Hext).
  - intros k j Hk.
    destruct (Forall2_nth_error_l Hext k Hk) as ([m rot] & Hchan & Hm & _ & Hrot).
    exists m, rot. cbn [fst snd] in *. repeat split; trivial.
    rewrite (tick_messages_group "/tracking/" y_delta chans 1 k Hchan).
    f_equal. lia.
Qed.

Lemma tick_emits_channels_witness :
  tick (H := maclaurin_libm) studio [1; 2] (PyInt 0) initial_state
  = (OK tt, push (tick_messages "/tracking/" (PyInt 0) 1 studio_channels)
              (after_pose_read initial_state))
  /\ List.length (tick_messages "/tracking/" (PyInt 0) 1 studio_channels) = 4 * 2.
Proof.
  pose proof (well_formed_4x4 0.96 0 0.28 0.1 0 1 0 1.2 (-0.28) 0 0.96 0.3 0 0 0 1
              : well_formed pose_yawed)%float as Wy.
  pose proof (well_formed_4x4 1 0 0 0.1 0 1 0 1.2 0 0 1 0.3 0 0 0 1
              : well_formed pose_level)%float as Wl.
  assert (Hext : Forall2 (extracted (H := maclaurin_libm)
                            studio_poses)
                   [1; 2] studio_channels).
  { repeat constructor; assumption. }
  destruct (tick_emits_channels (H := maclaurin_libm) studio (PyInt 0) initial_state
              (device_indexes := [1; 2]) eq_refl Hext (fun _ _ => eq_refl))
    as (Htick & Hlen & _).
  split; [exact Htick | exact Hlen].
Defined.

(** C1, counterexample: in the sample run with two devices the eight
    messages are sent, in the stated order, but to the addresses
    [/tracking/trackers/n/...], not to [trackers/n/...]; and an iteration
    cut short by a send that raises has sent five messages, not eight. *)
Lemma tick_addresses_carry_prefix :
  fst (tick (H := maclaurin_libm) studio [1; 2] (PyInt 0) initial_state) = OK tt
  /\ map fst (sent (snd (tick (H := maclaurin_libm) studio [1; 2] (PyInt 0) initial_state)))
     = [ "/tracking/trackers/1/position"; "/tracking/trackers/1/rotation/x";
         "/tracking/trackers/1/rotation/y"; "/tracking/trackers/1/rotation/z";
         "/tracking/trackers/2/position"; "/tracking/trackers/2/rotation/x";
         "/tracking/trackers/2/rotation/y"; "/tracking/trackers/2/rotation/z" ]
  /\ map fst (sent (snd (tick (H := maclaurin_libm) studio [1; 2] (PyInt 0) initial_state)))
     <> [ "trackers/1/position"; "trackers/1/rotation/x";
          "trackers/1/rotation/y"; "trackers/1/rotation/z";
          "trackers/2/position"; "trackers/2/rotation/x";
          "trackers/2/rotation/y"; "trackers/2/rotation/z" ]
  /\ sent (snd (tick (H := maclaurin_libm) studio [1; 2] (PyInt 0) initial_state))
     <> tick_messages "" (PyInt 0) 1 studio_channels
  /\ List.length
       (sent (snd (tick (H := maclaurin_libm) studio_send_failure [1; 2] (PyInt 0)
                     initial_state))) = 5.
Proof.
  split; [reflexivity|]. split; [reflexivity|]. split; [|split].
  - vm_compute. discriminate.
  - vm_compute. discriminate.
  - reflexivity.
Qed.

(* ===================================================================== *)
(** ** Every run with enough iterations reaches a [return] *)
(* ===================================================================== *)

Lemma bindR_returns {A B : Type} (c : result A) (k : A -> result B) :
  c <> OutOfFuel -> (forall a, k a <> OutOfFuel) -> bindR c k <> OutOfFuel.
Proof. destruct c; cbn; auto; discriminate. Qed.

Lemma py_index_returns {A : Type} (xs : list A) (i : nat) : py_index xs i <> OutOfFuel.
Proof. unfold py_index. destruct (nth_error xs i); discriminate. Qed.

Lemma py_truediv_returns (a b : float) : py_truediv a b <> OutOfFuel.
Proof. unfold py_truediv. destruct (PrimFloat.eqb b PrimFloat.zero); discriminate. Qed.

Lemma math_asin_returns `{Libm} (x : float) : math_asin x <> OutOfFuel.
Proof.
  unfold math_asin. destruct (PrimFloat.is_nan x); [discriminate|].
  destruct (_ && _); discriminate.
Qed.

Ltac returns_step :=
  first [ apply py_index_returns | apply py_truediv_returns | apply math_asin_returns
        | discriminate | (apply bindR_returns; [|intros ?]) ].

Lemma get_position_returns (m : matrix) : get_position m <> OutOfFuel.
Proof. unfold get_position. repeat returns_step. Qed.

Lemma get_euler_angle_returns `{Libm} (m : matrix) : get_euler_angle m <> OutOfFuel.
Proof.
  unfold get_euler_angle.
  apply bindR_returns; [apply py_index_returns|intros r0].
  apply bindR_returns; [apply py_index_returns|intros m02].
  apply bindR_returns; [apply math_asin_returns|intros rot_y].
  destruct (float_ne_int rot_y 0); repeat returns_step.
Qed.

Lemma bind_returns {A B : Type} (c : M A) (k : A -> M B) :
  returns c -> (forall a, returns (k a)) -> returns (bind c k).
Proof.
  intros Hc Hk st. unfold bind. specialize (Hc st).
  destruct (c st) as [[a|e|] st']; cbn [fst] in *; [apply Hk | discriminate | contradiction].
Qed.

Lemma lift_returns {A : Type} (r : result A) : r <> OutOfFuel -> returns (lift r).
Proof. intros Hr st. exact Hr. Qed.

Lemma send_message_returns (w : world) (address : string) (args : list pynum) :
  returns (send_message w address args).
Proof.
  intros st. unfold send_message.
  destruct (send_fault w (List.length (sent st))); discriminate.
Qed.

Lemma getLastPoses_returns (w : world) : returns (getLastPoses w).
Proof.
  intros st. unfold getLastPoses.
  destruct (last_poses w (pose_reads st)); discriminate.
Qed.

Lemma stream_device_returns `{Libm} (w : world) (yd : pynum) (poses : list matrix)
  (i j : nat) : returns (stream_device w yd poses i j).
Proof.
  unfold stream_device.
  apply bind_returns; [apply lift_returns, py_index_returns|intros m].
  apply bind_returns; [apply lift_returns, get_position_returns|intros [[x y] z]].
  apply bind_returns; [apply lift_returns, get_euler_angle_returns|intros [[rx ry] rz]].
  repeat (apply bind_returns; [apply send_message_returns|intros _]).
  apply send_message_returns.
Qed.

Lemma stream_devices_returns `{Libm} (w : world) (yd : pynum) (poses : list matrix)
  (idx : list nat) : forall i, returns (stream_devices w yd poses i idx).
Proof.
  induction idx as [|j rest IH]; intros i; cbn [stream_devices].
  - intros st. discriminate.
  - apply bind_returns; [apply stream_device_returns|intros _; apply IH].
Qed.

Lemma tick_returns `{Libm} (w : world) (idx : list nat) (yd : pynum) :
  returns (tick w idx yd).
Proof.
  unfold tick. apply bind_returns; [apply getLastPoses_returns|intros poses].
  apply stream_devices_returns.
Qed.

Lemma y_delta_of_returns (w : world) (cfg : config) : returns (y_delta_of w cfg).
Proof.
  unfold y_delta_of. destruct (standard_device cfg) as [std|]; [|intros st; discriminate].
  unfold calibrate.
  apply bind_returns; [apply lift_returns, get_device_index_total|intros i].
  apply bind_returns; [apply getLastPoses_returns|intros poses].
  destruct i as [i|]; [|intros st; discriminate].
  repeat (apply bind_returns; [apply lift_returns, py_index_returns|intros ?]).
  intros st. discriminate.
Qed.

(** Once the flag is read as set within the iterations given, the loop has
    ended: cleanly, or earlier in the failure branch. *)
Lemma stream_loop_returns `{Libm} (w : world) (idx : list nat) (yd : pynum) (fuel : nat) :
  forall t st t',
    t <= t' < t + fuel -> thread_terminate w t' = true ->
    fst (stream_loop fuel w idx yd t st) <> StillRunning.
Proof.
  induction fuel as [|fuel IH]; intros t st t' Hrange Hset; [lia|].
  cbn [stream_loop]. destruct (thread_terminate w t) eqn:Hflag; [discriminate|].
  pose proof (tick_returns w idx yd st) as Htick.
  destruct (tick w idx yd st) as [[[]|e|] st']; cbn [fst] in *.
  - apply (IH (S t) st' t'); [|exact Hset].
    assert (t' <> t) by (intros ->; congruence). lia.
  - discriminate.
  - contradiction.
Qed.

Lemma run_tracker_server_returns `{Libm} (fuel : nat) (w : world) (cfg : config)
  (st : state) (t' : nat) :
  t' < fuel -> thread_terminate w t' = true ->
  fst (run_tracker_server fuel w cfg st) <> StillRunning.
Proof.
  intros Hlt Hset. unfold run_tracker_server.
  pose proof (startup_total w cfg st) as Hs.
  destruct (startup w cfg st) as [[idx|e|] st1]; cbn [fst] in *;
    [|discriminate|contradiction].
  pose proof (y_delta_of_returns w cfg st1) as Hy.
  destruct (y_delta_of w cfg st1) as [[yd|e|] st2]; cbn [fst] in *;
    [|discriminate|contradiction].
  apply (@stream_loop_returns _ w idx yd fuel 0 st2 t'); [lia|exact Hset].
Qed.

(* ===================================================================== *)
(** ** More on enumeration and resolution *)
(* ===================================================================== *)

Lemma serials_before (slots : list string) :
  forall n, n <= List.length slots ->
    map (getStringTrackedDeviceProperty slots) (seq 0 n) = firstn n slots.
Proof.
  unfold getStringTrackedDeviceProperty.
  induction slots as [|s rest IH]; intros n Hn.
  - cbn in Hn. now replace n with 0 by lia.
  - destruct n as [|n]; [reflexivity|].
    cbn [seq map firstn nth]. f_equal.
    rewrite <- seq_shift, map_map. cbn [nth].
    apply IH. cbn in Hn. lia.
Qed.

(** X1: [get_all_device_serial] never fails and returns the slots' serials
    up to the first empty one, in slot order: the longest prefix of the
    slots with no empty serial.  A device in a slot after an empty one is
    not listed. *)
Theorem get_all_device_serial_spec (slots : list string) :
  exists n,
    get_all_device_serial slots = OK (firstn n slots)
    /\ n <= List.length slots
    /\ getStringTrackedDeviceProperty slots n = ""
    /\ Forall (fun serial => serial <> "") (firstn n slots).
Proof.
  destruct (scan_stops slots "") as (n & Hp & Hn).
  assert (He : getStringTrackedDeviceProperty slots n = "") by tauto.
  pose proof (passed_over_bound Hp) as Hb.
  exists n. split; [|split; [exact Hb|split; [exact He|]]].
  - rewrite (get_all_device_serial_prefix Hp He). f_equal.
    now apply serials_before.
  - rewrite <- (serials_before slots Hb). apply Forall_forall.
    intros serial Hin. apply in_map_iff in Hin. destruct Hin as (j & Heq & Hj).
    subst serial. apply in_seq in Hj. apply (Hp j). lia.
Qed.

(** X3: what each result of [get_device_index] means.  An index is the
    first slot carrying the serial, with no empty slot before it; [None]
    comes only under [ignore = true] and an exception only under
    [ignore = false], both only when an empty slot is reached before any
    match; the exception is always [RuntimeError]; the scan always ends. *)
Theorem get_device_index_inversion (slots : list string) (name : string)
  (ignore : bool) :
  match get_device_index slots name ignore with
  | OK (Some i) => first_slot_of slots name i
  | OK None => ignore = true /\ not_found slots name
  | Err e => e = RuntimeError /\ ignore = false /\ not_found slots name
  | OutOfFuel => False
  end.
Proof.
  destruct (scan_stops slots name) as (i & Hp & Hi).
  destruct (string_dec (getStringTrackedDeviceProperty slots i) name) as [Hm|Hm].
  - rewrite (get_device_index_found ignore Hp Hm). now split.
  - assert (He : getStringTrackedDeviceProperty slots i = "") by tauto.
    rewrite (get_device_index_sentinel ignore Hp He Hm).
    assert (Hnf : not_found slots name).
    { exists i. split; [exact Hp|split; [exact He|]].
      intros Hn. apply Hm. now rewrite He, Hn. }
    destruct ignore; auto.
Qed.

Lemma nth_serials (slots : list string) (n j : nat) :
  j < n ->
  nth j (map (getStringTrackedDeviceProperty slots) (seq 0 n)) ""
  = getStringTrackedDeviceProperty slots j.
Proof.
  intros Hj.
  rewrite (nth_indep _ "" (getStringTrackedDeviceProperty slots 0))
    by now rewrite length_map, length_seq.
  rewrite map_nth, seq_nth by exact Hj. reflexivity.
Qed.

(** The first slot carrying a non-empty serial lies before the first empty
    slot. *)
Lemma first_slot_before_sentinel (slots : list string) (name : string) (i n : nat) :
  passed_over slots name 0 i -> getStringTrackedDeviceProperty slots i = name ->
  name <> "" ->
  passed_over slots "" 0 n -> getStringTrackedDeviceProperty slots n = "" ->
  i < n.
Proof.
  intros Hp Hi Hne Hq Hn.
  destruct (Nat.lt_trichotomy i n) as [Hlt | [Heq | Hgt]]; [exact Hlt| |].
  - subst i. exfalso. apply Hne. now rewrite <- Hi, Hn.
  - exfalso. destruct (Hp n ltac:(lia)) as [_ Hnn]. now apply Hnn.
Qed.

(** X2: enumeration and resolution agree.  A serial listed by
    [get_all_device_serial] resolves, whatever [ignore] is, to the position
    of its first occurrence in that list; a non-empty serial that is not
    listed resolves to no slot. *)
Theorem listed_serial_resolves (slots serials : list string) (name : string) :
  get_all_device_serial slots = OK serials ->
  (In name serials ->
   forall ignore, exists i,
     get_device_index slots name ignore = OK (Some i)
     /\ i < List.length serials
     /\ nth i serials "" = name
     /\ (forall j, j < i -> nth j serials "" <> name))
  /\ (name <> "" -> ~ In name serials ->
      get_device_index slots name true = OK None
      /\ get_device_index slots name false = Err RuntimeError).
Proof.
  intros Hall.
  destruct (scan_stops slots "") as (n & Hq & Hn').
  assert (Hn : getStringTrackedDeviceProperty slots n = "") by tauto. clear Hn'.
  rewrite (get_all_device_serial_prefix Hq Hn) in Hall.
  inversion Hall; subst serials; clear Hall.
  split.
  - intros Hin ignore.
    apply in_map_iff in Hin. destruct Hin as (j & Hj & Hjn). apply in_seq in Hjn.
    assert (Hne : name <> "").
    { rewrite <- Hj. apply (Hq j). lia. }
    destruct (scan_stops slots name) as (i & Hp & Hi).
    assert (Hij : i <= j).
    { destruct (Nat.le_gt_cases i j) as [|Hlt]; [assumption|].
      exfalso. destruct (Hp j ltac:(lia)) as [Hnj _]. now apply Hnj. }
    assert (Him : getStringTrackedDeviceProperty slots i = name).
    { destruct Hi as [|He]; [assumption|].
      exfalso. destruct (Hq i ltac:(lia)) as [Hni _]. now apply Hni. }
    exists i. split; [now apply get_device_index_found|].
    rewrite length_map, length_seq. split; [lia|]. split.
    + rewrite nth_serials by lia. exact Him.
    + intros j' Hj'. rewrite nth_serials by lia. apply (Hp j'). lia.
  - intros Hne Hnot.
    destruct (scan_stops slots name) as (i & Hp & Hi).
    destruct (string_dec (getStringTrackedDeviceProperty slots i) name) as [Hm|Hm].
    + exfalso. apply Hnot.
      pose proof (first_slot_before_sentinel Hp Hm Hne Hq Hn) as Hlt.
      apply in_map_iff. exists i. split; [exact Hm|]. apply in_seq. lia.
    + assert (He : getStringTrackedDeviceProperty slots i = "") by tauto.
      split.
      * exact (get_device_index_sentinel true Hp He Hm).
      * exact (get_device_index_sentinel false Hp He Hm).
Qed.

Lemma listed_serial_resolves_witness :
  (exists i, get_device_index ["HMD"; "LHR-A"; "LHR-B"; ""; "LHR-C"] "LHR-B" false
             = OK (Some i) /\ i < 3)
  /\ get_device_index ["HMD"; "LHR-A"; "LHR-B"; ""; "LHR-C"] "LHR-C" true = OK None.
Proof.
  destruct (@listed_serial_resolves ["HMD"; "LHR-A"; "LHR-B"; ""; "LHR-C"]
              ["HMD"; "LHR-A"; "LHR-B"] "LHR-B" eq_refl) as (Hin & _).
  destruct (@listed_serial_resolves ["HMD"; "LHR-A"; "LHR-B"; ""; "LHR-C"]
              ["HMD"; "LHR-A"; "LHR-B"] "LHR-C" eq_refl) as (_ & Hout).
  split.
  - destruct (Hin (or_intror (or_intror (or_introl eq_refl))) false)
      as (i & Hres & Hlt & _).
    exists i. split; assumption.
  - apply Hout; [discriminate|].
    intros [Hc | [Hc | [Hc | []]]]; discriminate.
Defined.

Lemma get_device_index_cases (slots : list string) (name : string) (ignore : bool) :
  (exists i, first_slot_of slots name i
             /\ get_device_index slots name ignore = OK (Some i))
  \/ (not_found slots name
      /\ get_device_index slots name ignore
         = if ignore then OK None else Err RuntimeError).
Proof.
  destruct (scan_stops slots name) as (i & Hp & Hi).
  destruct (string_dec (getStringTrackedDeviceProperty slots i) name) as [Hm|Hm].
  - left. exists i. split; [now split|]. exact (get_device_index_found ignore Hp Hm).
  - right. assert (He : getStringTrackedDeviceProperty slots i = "") by tauto.
    split; [|exact (get_device_index_sentinel ignore Hp He Hm)].
    exists i. split; [exact Hp|split; [exact He|]].
    intros Hn. apply Hm. now rewrite He, Hn.
Qed.

Lemma first_slot_excludes_not_found (slots : list string) (name : string) (i : nat) :
  first_slot_of slots name i -> not_found slots name -> False.
Proof.
  intros [Hp Hi] (j & Hq & Hj & Hne).
  destruct (Nat.lt_trichotomy i j) as [Hlt | [Heq | Hgt]].
  - destruct (Hq i ltac:(lia)) as [Hni _]. now apply Hni.
  - subst j. apply Hne. now rewrite <- Hi, Hj.
  - destruct (Hp j ltac:(lia)) as [_ Hnj]. now apply Hnj.
Qed.

Lemma resolve_devices_ignoring_acc (slots use : list string) :
  forall acc,
    resolve_devices slots true use acc = OK (acc ++ flat_map (found slots) use).
Proof.
  induction use as [|device rest IH]; intros acc; cbn [resolve_devices flat_map].
  - now rewrite app_nil_r.
  - unfold found at 1.
    destruct (get_device_index_cases slots device true) as [(i & _ & ->) | (_ & ->)];
      cbn [bindR].
    + rewrite IH, <- app_assoc. reflexivity.
    + rewrite IH. reflexivity.
Qed.

(** X4: with [ignore = true] the resolution of the configured devices
    never fails: it yields, in configuration order, the slot of every
    device that is found and drops the others, so a device configured
    after a missing one moves up one channel; each index is the first slot
    carrying a configured serial, and there are at most as many indexes as
    configured devices. *)
Theorem resolve_devices_ignoring (slots use : list string) :
  resolve_devices slots true use [] = OK (flat_map (found slots) use)
  /\ List.length (flat_map (found slots) use) <= List.length use
  /\ Forall (fun i => exists name, In name use /\ first_slot_of slots name i)
       (flat_map (found slots) use).
Proof.
  split; [exact (resolve_devices_ignoring_acc slots use [])|]. split.
  - induction use as [|device rest IH]; [cbn; lia|].
    cbn [flat_map]. rewrite length_app. unfold found at 1.
    destruct (get_device_index slots device true) as [[i|]|e|]; cbn [List.length]; lia.
  - apply Forall_forall. intros i Hin. apply in_flat_map in Hin.
    destruct Hin as (name & Hname & Hi). exists name. split; [exact Hname|].
    unfold found in Hi.
    destruct (get_device_index_cases slots name true) as [(i' & Hfirst & Heq) | (_ & Heq)];
      rewrite Heq in Hi; [|contradiction].
    destruct Hi as [<- | []]. exact Hfirst.
Qed.

Lemma resolve_devices_strict_acc (slots use : list string) :
  forall acc idx,
    resolve_devices slots false use acc = OK idx ->
    exists new, idx = acc ++ new /\ Forall2 (first_slot_of slots) use new.
Proof.
  induction use as [|device rest IH]; intros acc idx Hres; cbn [resolve_devices] in Hres.
  - inversion Hres; subst. exists []. split; [now rewrite app_nil_r | constructor].
  - destruct (get_device_index_cases slots device false)
      as [(i & Hfirst & Heq) | (_ & Heq)]; rewrite Heq in Hres; cbn [bindR] in Hres;
      [|discriminate].
    destruct (IH _ _ Hres) as (new & -> & Hall).
    exists (i :: new). split; [now rewrite <- app_assoc | now constructor].
Qed.

(** X5: with [ignore = false] the resolution succeeds exactly when every
    configured serial is found, and then device k of the configuration
    gets index k of the result, the first slot carrying its serial; as soon
    as one configured serial is not found the resolution raises
    [RuntimeError]. *)
Theorem resolve_devices_strict (slots use : list string) :
  (forall idx,
      resolve_devices slots false use [] = OK idx ->
      Forall2 (first_slot_of slots) use idx)
  /\ (Forall (fun name => exists i, first_slot_of slots name i) use ->
      exists idx, resolve_devices slots false use [] = OK idx)
  /\ (Exists (not_found slots) use ->
      resolve_devices slots false use [] = Err RuntimeError).
Proof.
  split; [|split].
  - intros idx Hres.
    destruct (resolve_devices_strict_acc _ _ _ Hres) as (new & -> & Hall). exact Hall.
  - generalize (@nil nat).
    induction use as [|device rest IH]; intros acc Hall; cbn [resolve_devices].
    + now exists acc.
    + inversion_clear Hall as [|? ? (i & Hfirst) Hrest].
      destruct (get_device_index_cases slots device false)
        as [(i' & _ & ->) | (Hnf & _)]; cbn [bindR].
      * now apply IH.
      * exfalso. exact (first_slot_excludes_not_found Hfirst Hnf).
  - generalize (@nil nat).
    induction use as [|device rest IH]; intros acc Hex; cbn [resolve_devices].
    + inversion Hex.
    + destruct (get_device_index_cases slots device false)
        as [(i & Hfirst & ->) | (_ & ->)]; cbn [bindR]; [|reflexivity].
      inversion_clear Hex as [? ? Hnf | ? ? Hrest].
      * exfalso. exact (first_slot_excludes_not_found Hfirst Hnf).
      * now apply IH.
Qed.

Lemma resolve_devices_strict_witness :
  (exists idx, resolve_devices ["HMD"; "LHR-A"; "LHR-B"; ""] false ["LHR-B"; "HMD"] []
               = OK idx)
  /\ resolve_devices ["HMD"; "LHR-A"; "LHR-B"; ""] false ["LHR-B"; "LHR-Z"; "HMD"] []
     = Err RuntimeError.
Proof.
  assert (Hp0 : passed_over ["HMD"; "LHR-A"; "LHR-B"; ""] "HMD" 0 0).
  { intros j Hj. lia. }
  assert (Hp2 : passed_over ["HMD"; "LHR-A"; "LHR-B"; ""] "LHR-B" 0 2).
  { intros j Hj. assert (Hc : j = 0 \/ j = 1) by lia.
    destruct Hc as [-> | ->]; split; discriminate. }
  assert (Hp3 : passed_over ["HMD"; "LHR-A"; "LHR-B"; ""] "LHR-Z" 0 3).
  { intros j Hj. assert (Hc : j = 0 \/ j = 1 \/ j = 2) by lia.
    destruct Hc as [-> | [-> | ->]]; split; discriminate. }
  split.
  - apply (resolve_devices_strict ["HMD"; "LHR-A"; "LHR-B"; ""] ["LHR-B"; "HMD"]).
    repeat constructor.
    + exists 2. now split.
    + exists 0. now split.
  - apply (resolve_devices_strict ["HMD"; "LHR-A"; "LHR-B"; ""]
             ["LHR-B"; "LHR-Z"; "HMD"]).
    apply Exists_cons_tl, Exists_cons_hd.
    exists 3. split; [exact Hp3|]. split; [reflexivity | discriminate].
Defined.

(** X6: ignoring missing devices does not allow a run without devices:
    when [ignore_not_found_device] is set and none of the configured
    serials is found, nothing raises during resolution, the resolved list
    is empty and the run ends in the startup failure branch with the
    [AssertionError] of the device-count [assert], nothing sent. *)
Theorem all_devices_missing `{Libm} (fuel : nat) (w : world) (cfg : config)
  (st : state) :
  client_fault w = None ->
  ignore_not_found_device cfg = true ->
  Forall (not_found (device_slots w)) (use_device cfg) ->
  resolve_devices (device_slots w) true (use_device cfg) [] = OK []
  /\ run_tracker_server fuel w cfg st
     = (StartupFailed AssertionError, error_handling AssertionError st)
  /\ sent (error_handling AssertionError st) = sent st.
Proof.
  intros Hclient Hignore Hall.
  assert (Hnone : flat_map (found (device_slots w)) (use_device cfg) = []).
  { induction (use_device cfg) as [|device rest IH]; [reflexivity|].
    inversion_clear Hall as [|? ? Hnf Hrest]. cbn [flat_map]. rewrite (IH Hrest).
    unfold found.
    destruct (get_device_index_cases (device_slots w) device true)
      as [(i & Hfirst & _) | (_ & ->)]; [|reflexivity].
    exfalso. exact (first_slot_excludes_not_found Hfirst Hnf). }
  assert (Hres : resolve_devices (device_slots w) true (use_device cfg) [] = OK []).
  { now rewrite resolve_devices_ignoring_acc, Hnone. }
  split; [exact Hres|]. split; [|reflexivity].
  unfold run_tracker_server. now rewrite startup_unfold, Hclient, Hignore, Hres.
Qed.

Lemma all_devices_missing_witness :
  run_tracker_server (H := maclaurin_libm) 3 studio absent_trackers initial_state
  = (StartupFailed AssertionError, error_handling AssertionError initial_state).
Proof.
  assert (Hp : forall name, name <> "HMD" -> name <> "LHR-A" -> name <> "LHR-B" ->
                            name <> "" -> not_found (device_slots studio) name).
  { intros name H0 H1 H2 H3. exists 3. split; [|split; [reflexivity|exact H3]].
    intros j Hj. assert (Hc : j = 0 \/ j = 1 \/ j = 2) by lia.
    destruct Hc as [-> | [-> | ->]]; split; cbn; congruence. }
  apply (all_devices_missing (H := maclaurin_libm) 3 studio absent_trackers
           initial_state eq_refl eq_refl).
  repeat constructor; apply Hp; discriminate.
Defined.

(* ===================================================================== *)
(** ** More on the pose transform *)
(* ===================================================================== *)

Lemma py_index_spec {A : Type} (xs : list A) (i : nat) (d : A) :
  py_index xs i = if Nat.ltb i (List.length xs) then OK (nth i xs d) else Err IndexError.
Proof.
  unfold py_index. destruct (Nat.ltb_spec i (List.length xs)) as [Hlt|Hge].
  - destruct (nth_error xs i) eqn:Hn.
    + now rewrite (nth_error_nth _ _ d Hn).
    + apply nth_error_None in Hn. lia.
  - apply nth_error_None in Hge. now rewrite Hge.
Qed.

(** X7: [get_position] needs the first three rows and four entries in
    each, nothing more: on such a matrix (the runtime's 3x4 form included)
    it returns [(m[0][3], m[1][3], m[2][3])], on any other it raises
    [IndexError]. *)
Theorem get_position_shape (m : matrix) :
  (3 <= List.length m ->
   (forall i, i < 3 -> 4 <= List.length (nth i m [])) ->
   get_position m = OK (entry m 0 3, entry m 1 3, entry m 2 3))
  /\ (List.length m < 3 \/ (exists i, i < 3 /\ List.length (nth i m []) < 4) ->
      get_position m = Err IndexError).
Proof.
  unfold get_position, entry.
  rewrite (py_index_spec m 0 []), (py_index_spec m 1 []), (py_index_spec m 2 []).
  split.
  - intros Hrows Hcols.
    pose proof (Hcols 0 ltac:(lia)) as H0. pose proof (Hcols 1 ltac:(lia)) as H1.
    pose proof (Hcols 2 ltac:(lia)) as H2.
    destruct (Nat.ltb_spec 0 (List.length m)); [|lia]. cbn [bindR].
    rewrite (py_index_spec _ 3 PrimFloat.zero).
    destruct (Nat.ltb_spec 3 (List.length (nth 0 m []))); [|lia]. cbn [bindR].
    destruct (Nat.ltb_spec 1 (List.length m)); [|lia]. cbn [bindR].
    rewrite (py_index_spec _ 3 PrimFloat.zero).
    destruct (Nat.ltb_spec 3 (List.length (nth 1 m []))); [|lia]. cbn [bindR].
    destruct (Nat.ltb_spec 2 (List.length m)); [|lia]. cbn [bindR].
    rewrite (py_index_spec _ 3 PrimFloat.zero).
    destruct (Nat.ltb_spec 3 (List.length (nth 2 m []))); [|lia]. reflexivity.
  - intros Hbad.
    assert (Hshort : forall i, List.length m <= i -> List.length (nth i m []) < 4).
    { intros i Hi. rewrite nth_overflow by exact Hi. cbn. lia. }
    destruct (Nat.ltb_spec 0 (List.length m)); [|reflexivity]. cbn [bindR].
    rewrite (py_index_spec _ 3 PrimFloat.zero).
    destruct (Nat.ltb_spec 3 (List.length (nth 0 m []))); [|reflexivity]. cbn [bindR].
    destruct (Nat.ltb_spec 1 (List.length m)); [|reflexivity]. cbn [bindR].
    rewrite (py_index_spec _ 3 PrimFloat.zero).
    destruct (Nat.ltb_spec 3 (List.length (nth 1 m []))); [|reflexivity]. cbn [bindR].
    destruct (Nat.ltb_spec 2 (List.length m)); [|reflexivity]. cbn [bindR].
    rewrite (py_index_spec _ 3 PrimFloat.zero).
    destruct (Nat.ltb_spec 3 (List.length (nth 2 m []))); [|reflexivity].
    exfalso. destruct Hbad as [Hlen | (i & Hi & Hrow)]; [lia|].
    assert (Hc : i = 0 \/ i = 1 \/ i = 2) by lia.
    destruct Hc as [-> | [-> | ->]]; lia.
Qed.

Lemma get_position_shape_witness :
  get_position pose_yawed_34
  = OK (entry pose_yawed_34 0 3, entry pose_yawed_34 1 3, entry pose_yawed_34 2 3)
  /\ get_position [ [1; 0; 0; 0.5]; [0; 1; 0; 0.5] ]%float = Err IndexError.
Proof.
  split.
  - apply (get_position_shape pose_yawed_34); [cbn; lia|].
    intros i Hi. assert (Hc : i = 0 \/ i = 1 \/ i = 2) by lia.
    destruct Hc as [-> | [-> | ->]]; cbn; lia.
  - apply (get_position_shape [ [1; 0; 0; 0.5]; [0; 1; 0; 0.5] ]%float).
    left. cbn. lia.
Defined.

Lemma py_index_error {A : Type} (xs : list A) (i : nat) (e : exn) :
  py_index xs i = Err e -> e = IndexError.
Proof. unfold py_index. destruct (nth_error xs i); congruence. Qed.

Lemma math_asin_cases `{Libm} (x : float) :
  math_asin x = OK (libm_asin x) \/ math_asin x = Err ValueError.
Proof.
  unfold math_asin. destruct (PrimFloat.is_nan x); [now left|].
  destruct (_ && _); [now left | now right].
Qed.

Lemma py_truediv_cases (a b : float) :
  py_truediv a b = OK (PrimFloat.div a b) \/ py_truediv a b = Err ZeroDivisionError.
Proof.
  unfold py_truediv. destruct (PrimFloat.eqb b PrimFloat.zero); [now right | now left].
Qed.

(** One step of the extraction, at the head of the goal: a subscript,
    where an [IndexError] ends it, or a division, where a
    [ZeroDivisionError] does. *)
Ltac subscript_step :=
  lazymatch goal with
  | |- match bindR (py_index ?xs ?i) _ with _ => _ end =>
      let Hidx := fresh "Hidx" in
      let Hret := fresh "Hret" in
      pose proof (@py_index_error _ xs i) as Hidx;
      pose proof (@py_index_returns _ xs i) as Hret;
      destruct (py_index xs i); cbn [bindR];
      [ clear Hidx Hret | rewrite (Hidx _ eq_refl); auto | contradiction ]
  end.

Ltac division_step :=
  lazymatch goal with
  | |- match bindR (py_truediv ?a ?b) _ with _ => _ end =>
      destruct (py_truediv_cases a b) as [-> | ->]; cbn [bindR]; [|auto]
  end.

(** X8: whatever the matrix, the Euler extraction raises nothing but
    [IndexError], [ValueError] and [ZeroDivisionError]; when it returns,
    [rot_x] and [rot_y] are floats, and [rot_z] is a float when
    [rot_y != 0] but the Python int [0] when [rot_y == 0]. *)
Theorem get_euler_angle_result `{Libm} (m : matrix) :
  match get_euler_angle m with
  | OK (rot_x, rot_y, rot_z) =>
      exists fx fy,
        rot_x = PyFloat fx /\ rot_y = PyFloat fy
        /\ (if is_zero fy then rot_z = PyInt 0 else exists fz, rot_z = PyFloat fz)
  | Err e => e = IndexError \/ e = ValueError \/ e = ZeroDivisionError
  | OutOfFuel => False
  end.
Proof.
  unfold get_euler_angle.
  do 2 subscript_step.
  lazymatch goal with
  | |- match bindR (math_asin ?x) _ with _ => _ end =>
      destruct (math_asin_cases x) as [-> | ->]; cbn [bindR]; [|auto]
  end.
  rewrite float_ne_int_0.
  lazymatch goal with
  | |- context [negb (is_zero ?fy)] => destruct (is_zero fy) eqn:Hy; cbn [negb]
  end.
  - repeat (subscript_step || division_step).
    eexists _, _. split; [reflexivity|]. split; [reflexivity|]. now rewrite Hy.
  - repeat (subscript_step || division_step).
    eexists _, _. split; [reflexivity|]. split; [reflexivity|]. rewrite Hy. eauto.
Qed.

(** X9: on a well-formed matrix whose entry [m[0][2]] is a number outside
    [-1, 1], the Euler extraction raises [ValueError], the domain error of
    [math.asin], before any division. *)
Theorem get_euler_angle_domain_error `{Libm} (m : matrix) :
  well_formed m ->
  PrimFloat.is_nan (entry m 0 2) = false ->
  in_asin_domain (entry m 0 2) = false ->
  get_euler_angle m = Err ValueError.
Proof.
  intros Hwf Hnan Hdom. rewrite (get_euler_angle_entries Hwf).
  unfold math_asin. unfold in_asin_domain in Hdom. now rewrite Hnan, Hdom.
Qed.

Lemma get_euler_angle_domain_error_witness :
  get_euler_angle (H := maclaurin_libm) pose_sheared = Err ValueError.
Proof.
  apply (get_euler_angle_domain_error (H := maclaurin_libm) (m := pose_sheared)).
  - exact (well_formed_4x4 1 0 1.5 0.1 0 1 0 1.2 0 0 1 0.3 0 0 0 1)%float.
  - reflexivity.
  - reflexivity.
Defined.

(* ===================================================================== *)
(** ** What a run reads, sends and reports *)
(* ===================================================================== *)

Lemma send_message_cases (w : world) (address : string) (args : list pynum) (st : state) :
  send_message w address args st = (OK tt, push [(address, args)] st)
  \/ exists e, send_message w address args st = (Err e, st).
Proof.
  unfold send_message, push.
  destruct (send_fault w (List.length (sent st))) as [e|]; [right; now exists e | now left].
Qed.

Lemma addressed_position (n : nat) (x y z : pynum) :
  addressed_to n (("/tracking/trackers/" ++ str n ++ "/position")%string, [x; y; z]).
Proof. left. split; reflexivity. Qed.

Lemma addressed_rotation_x (n : nat) (v : pynum) :
  addressed_to n (("/tracking/trackers/" ++ str n ++ "/rotation/x")%string, [v]).
Proof. right; left. split; reflexivity. Qed.

Lemma addressed_rotation_y (n : nat) (v : pynum) :
  addressed_to n (("/tracking/trackers/" ++ str n ++ "/rotation/y")%string, [v]).
Proof. right; right; left. split; reflexivity. Qed.

Lemma addressed_rotation_z (n : nat) (v : pynum) :
  addressed_to n (("/tracking/trackers/" ++ str n ++ "/rotation/z")%string, [v]).
Proof. right; right; right. split; reflexivity. Qed.

(** What one device of an iteration does to the state: it appends
    messages of its channel, four when it completes, fewer when it
    raises. *)
Lemma stream_device_effect `{Libm} (w : world) (yd : pynum) (poses : list matrix)
  (i j : nat) (st : state) :
  exists msgs,
    snd (stream_device w yd poses i j st) = push msgs st
    /\ Forall (addressed_to (S i)) msgs
    /\ match fst (stream_device w yd poses i j st) with
       | OK _ => List.length msgs = 4
       | Err _ => List.length msgs < 4
       | OutOfFuel => False
       end.
Proof.
  unfold stream_device, bind, lift. rewrite Nat.add_1_r.
  pose proof (py_index_returns poses j) as Hm.
  destruct (py_index poses j) as [m|e|];
    [|exists []; rewrite push_nil; cbn; split; [reflexivity|split; [constructor|lia]]
     |contradiction].
  pose proof (get_position_returns m) as Hp.
  destruct (get_position m) as [[[x y] z]|e|];
    [|exists []; rewrite push_nil; cbn; split; [reflexivity|split; [constructor|lia]]
     |contradiction].
  pose proof (get_euler_angle_returns m) as Hr.
  destruct (get_euler_angle m) as [[[rx ry] rz]|e|];
    [|exists []; rewrite push_nil; cbn; split; [reflexivity|split; [constructor|lia]]
     |contradiction].
  pose proof (addressed_position (S i) (PyFloat (PrimFloat.opp x))
                (PyFloat (PrimFloat.add y (to_float yd))) (PyFloat z)) as A0.
  pose proof (addressed_rotation_x (S i) rx) as A1.
  pose proof (addressed_rotation_y (S i) ry) as A2.
  pose proof (addressed_rotation_z (S i) rz) as A3.
  match goal with
  | |- context [send_message w ?a ?args st] =>
      destruct (send_message_cases w a args st) as [-> | (e & ->)];
        [|exists []; rewrite push_nil; cbn; split; [reflexivity|split; [constructor|lia]]]
  end.
  do 3 match goal with
  | |- context [send_message w ?a ?args (push ?l st)] =>
      destruct (send_message_cases w a args (push l st)) as [-> | (e & ->)];
        [rewrite push_push; cbn [app]
        |eexists; split; [reflexivity|]; split;
         [repeat constructor; assumption | cbn [fst List.length]; lia]]
  end.
  eexists; split; [reflexivity|]; split;
    [repeat constructor; assumption | reflexivity].
Qed.

Lemma stream_devices_effect `{Libm} (w : world) (yd : pynum) (poses : list matrix)
  (idx : list nat) :
  forall i st,
  exists msgs,
    snd (stream_devices w yd poses i idx st) = push msgs st
    /\ Forall (fun msg => exists n, i < n <= i + List.length idx /\ addressed_to n msg) msgs
    /\ match fst (stream_devices w yd poses i idx st) with
       | OK _ => List.length msgs = 4 * List.length idx
       | Err _ => List.length msgs < 4 * List.length idx
       | OutOfFuel => False
       end.
Proof.
  induction idx as [|j rest IH]; intros i st; cbn [stream_devices].
  - exists []. rewrite push_nil. cbn. split; [reflexivity|split; [constructor|reflexivity]].
  - unfold bind.
    destruct (stream_device_effect w yd poses i j st) as (m1 & Hs & Ha & Hf).
    destruct (stream_device w yd poses i j st) as [[[]|e|] st1];
      cbn [fst snd] in Hs, Hf; subst st1; [| |contradiction].
    + destruct (IH (S i) (push m1 st)) as (m2 & Hs2 & Ha2 & Hf2).
      exists (m1 ++ m2). rewrite Hs2, push_push. split; [reflexivity|]. split.
      * apply Forall_app. split.
        -- eapply Forall_impl; [|exact Ha]. intros msg Hmsg. exists (S i).
           split; [cbn [List.length]; lia | exact Hmsg].
        -- eapply Forall_impl; [|exact Ha2]. intros msg (n & Hn & Hmsg). exists n.
           split; [cbn [List.length]; lia | exact Hmsg].
      * rewrite length_app.
        destruct (fst (stream_devices w yd poses (S i) rest (push m1 st)));
          cbn [List.length]; [lia | lia | contradiction].
    + exists m1. cbn [fst snd]. split; [reflexivity|]. split.
      * eapply Forall_impl; [|exact Ha]. intros msg Hmsg. exists (S i).
        split; [cbn [List.length]; lia | exact Hmsg].
      * cbn [List.length]. lia.
Qed.

(** What one iteration does to the state: one bulk read, whether it
    completes or not, and messages of the channels 1 to k appended: 4k of
    them when it completes, fewer when it raises. *)
Lemma tick_effect `{Libm} (w : world) (idx : list nat) (yd : pynum) (st : state) :
  exists msgs,
    snd (tick w idx yd st) = push msgs (after_pose_read st)
    /\ Forall (fun msg => exists n, 1 <= n <= List.length idx /\ addressed_to n msg) msgs
    /\ match fst (tick w idx yd st) with
       | OK _ => List.length msgs = 4 * List.length idx
       | Err _ => idx <> [] -> List.length msgs < 4 * List.length idx
       | OutOfFuel => False
       end.
Proof.
  unfold tick, bind, getLastPoses. fold (after_pose_read st).
  destruct (last_poses w (pose_reads st)) as [e|poses].
  - exists []. rewrite push_nil. cbn [fst snd]. split; [reflexivity|]. split; [constructor|].
    intros Hne. destruct idx; [contradiction | cbn; lia].
  - destruct (stream_devices_effect w yd poses idx 0 (after_pose_read st))
      as (msgs & Hs & Ha & Hf).
    exists msgs. split; [exact Hs|]. split.
    + eapply Forall_impl; [|exact Ha]. intros msg (n & Hn & Hmsg). exists n.
      split; [lia | exact Hmsg].
    + destruct (fst (stream_devices w yd poses 0 idx (after_pose_read st))); auto.
Qed.

(** X10: the books of the streaming loop, for a non-empty device list of
    length k.  A loop that ends cleanly at its (n+1)-th iteration has made
    n bulk reads and sent exactly 4kn messages; a loop that ends in the
    failure branch after n complete iterations has made n+1 bulk reads and
    sent 4kn + r messages with r < 4k; a loop still running after the
    iterations given has made one read and sent 4k messages in each. *)
Theorem stream_loop_accounting `{Libm} (w : world) (device_indexes : list nat)
  (y_delta : pynum) (fuel : nat) :
  device_indexes <> [] ->
  forall t st,
    match fst (stream_loop fuel w device_indexes y_delta t st) with
    | Terminated =>
        exists n,
          n < fuel /\ thread_terminate w (t + n) = true
          /\ pose_reads (snd (stream_loop fuel w device_indexes y_delta t st))
             = pose_reads st + n
          /\ List.length (sent (snd (stream_loop fuel w device_indexes y_delta t st)))
             = List.length (sent st) + 4 * List.length device_indexes * n
    | LoopFailed _ =>
        exists n r,
          n < fuel /\ r < 4 * List.length device_indexes
          /\ pose_reads (snd (stream_loop fuel w device_indexes y_delta t st))
             = pose_reads st + n + 1
          /\ List.length (sent (snd (stream_loop fuel w device_indexes y_delta t st)))
             = List.length (sent st) + 4 * List.length device_indexes * n + r
    | StillRunning =>
        pose_reads (snd (stream_loop fuel w device_indexes y_delta t st))
        = pose_reads st + fuel
        /\ List.length (sent (snd (stream_loop fuel w device_indexes y_delta t st)))
           = List.length (sent st) + 4 * List.length device_indexes * fuel
    | StartupFailed _ | CalibrationFailed _ => False
    end.
Proof.
  intros Hne. induction fuel as [|fuel IH]; intros t st; cbn [stream_loop].
  - cbn [fst snd]. lia.
  - destruct (thread_terminate w t) eqn:Hflag.
    + cbn [fst snd]. exists 0. rewrite Nat.add_0_r. cbn [log sent pose_reads].
      repeat split; [lia | exact Hflag | lia | lia].
    + destruct (tick_effect w device_indexes y_delta st) as (msgs & Hs & _ & Hf).
      destruct (tick w device_indexes y_delta st) as [[[]|e|] st1];
        cbn [fst snd] in Hs, Hf; subst st1; [| |contradiction].
      * specialize (IH (S t) (push msgs (after_pose_read st))).
        destruct (fst (stream_loop fuel w device_indexes y_delta (S t)
                         (push msgs (after_pose_read st)))); try contradiction.
        -- destruct IH as (n & Hn & Hset & Hreads & Hsent). exists (S n).
           rewrite Hreads, Hsent. cbn [push after_pose_read sent pose_reads].
           rewrite length_app, Hf.
           replace (t + S n) with (S t + n) by lia.
           repeat split; [lia | exact Hset | lia | lia].
        -- destruct IH as (n & r & Hn & Hr & Hreads & Hsent). exists (S n), r.
           rewrite Hreads, Hsent. cbn [push after_pose_read sent pose_reads].
           rewrite length_app, Hf. repeat split; lia.
        -- destruct IH as (Hreads & Hsent).
           rewrite Hreads, Hsent. cbn [push after_pose_read sent pose_reads].
           rewrite length_app, Hf. lia.
      * cbn [fst snd]. exists 0, (List.length msgs).
        cbn [error_handling log push after_pose_read sent pose_reads].
        rewrite length_app. specialize (Hf Hne). repeat split; lia.
Qed.

Lemma stream_loop_accounting_witness :
  exists n,
    n < 5 /\ thread_terminate studio (0 + n) = true
    /\ pose_reads (snd (stream_loop (H := maclaurin_libm) 5 studio [1; 2] (PyInt 0) 0
                          initial_state)) = pose_reads initial_state + n
    /\ List.length
         (sent (snd (stream_loop (H := maclaurin_libm) 5 studio [1; 2] (PyInt 0) 0
                       initial_state)))
       = List.length (sent initial_state) + 4 * List.length [1; 2] * n.
Proof.
  exact (stream_loop_accounting (H := maclaurin_libm) studio (PyInt 0) 5
           (device_indexes := [1; 2]) ltac:(discriminate) 0 initial_state).
Defined.

Lemma stream_loop_trace `{Libm} (w : world) (idx : list nat) (yd : pynum) (fuel : nat) :
  forall t st,
  exists msgs,
    sent (snd (stream_loop fuel w idx yd t st)) = sent st ++ msgs
    /\ Forall (fun msg => exists n, 1 <= n <= List.length idx /\ addressed_to n msg) msgs
    /\ shell (snd (stream_loop fuel w idx yd t st))
       = shell st ++ exit_events (fst (stream_loop fuel w idx yd t st)).
Proof.
  induction fuel as [|fuel IH]; intros t st; cbn [stream_loop].
  - exists []. cbn [fst snd exit_events]. rewrite !app_nil_r.
    split; [reflexivity|split; [constructor|reflexivity]].
  - destruct (thread_terminate w t).
    + exists []. cbn [fst snd exit_events log sent shell]. rewrite app_nil_r.
      split; [reflexivity|split; [constructor|reflexivity]].
    + destruct (tick_effect w idx yd st) as (msgs & Hs & Ha & Hf).
      destruct (tick w idx yd st) as [[[]|e|] st1];
        cbn [fst snd] in Hs, Hf; subst st1; [| |contradiction].
      * destruct (IH (S t) (push msgs (after_pose_read st))) as (more & Hsent & Hmore & Hshell).
        exists (msgs ++ more). rewrite Hsent, Hshell.
        cbn [push after_pose_read sent shell]. rewrite app_assoc.
        split; [reflexivity|]. split; [|reflexivity].
        apply Forall_app. now split.
      * exists msgs. cbn [fst snd exit_events error_handling log push after_pose_read
                             sent shell].
        split; [reflexivity|split; [exact Ha|reflexivity]].
Qed.

Lemma y_delta_of_effect (w : world) (cfg : config) (st : state) :
  sent (snd (y_delta_of w cfg st)) = sent st
  /\ shell (snd (y_delta_of w cfg st)) = shell st
  /\ pose_reads st <= pose_reads (snd (y_delta_of w cfg st)) <= pose_reads st + 1.
Proof.
  unfold y_delta_of.
  destruct (standard_device cfg) as [std|];
    [|unfold ret; cbn; repeat split; try reflexivity; lia].
  rewrite calibrate_unfold.
  destruct (get_device_index (device_slots w) std false) as [i|e|];
    try (cbn; repeat split; try reflexivity; lia).
  destruct (last_poses w (pose_reads st)) as [e|poses];
    [cbn; repeat split; try reflexivity; lia|].
  destruct i as [i|]; cbn; repeat split; try reflexivity; lia.
Qed.

(** X11: whatever the world and the configuration, a run only ever adds to
    what was sent, and every message it adds is addressed to a channel
    between 1 and 8: the position of that channel with three numbers or
    one of its three rotations with one number. *)
Theorem run_sends_channel_messages `{Libm} (fuel : nat) (w : world) (cfg : config)
  (st : state) :
  exists msgs,
    sent (snd (run_tracker_server fuel w cfg st)) = sent st ++ msgs
    /\ Forall (fun msg => exists n, 1 <= n <= 8 /\ addressed_to n msg) msgs.
Proof.
  assert (Hnone : forall st' : state, sent st' = sent st ->
            exists msgs, sent st' = sent st ++ msgs
              /\ Forall (fun msg => exists n, 1 <= n <= 8 /\ addressed_to n msg) msgs).
  { intros st' Heq. exists []. rewrite app_nil_r. split; [exact Heq | constructor]. }
  unfold run_tracker_server. rewrite startup_unfold.
  destruct (client_fault w) as [e|]; [now apply Hnone|].
  destruct (resolve_devices _ _ _ _) as [idx|e|]; [|now apply Hnone..].
  destruct (valid_device_count (List.length idx)) eqn:Hv; [|now apply Hnone].
  apply valid_device_count_iff in Hv.
  destruct (y_delta_of_effect w cfg st) as (Hsent & _).
  destruct (y_delta_of w cfg st) as [[yd|e|] st2]; cbn [fst snd] in Hsent;
    [|now apply Hnone..].
  destruct (stream_loop_trace w idx yd fuel 0 st2) as (msgs & Hs & Ha & _).
  exists msgs. rewrite Hs, Hsent. split; [reflexivity|].
  eapply Forall_impl; [|exact Ha]. intros msg (n & Hn & Hmsg). exists n.
  split; [lia | exact Hmsg].
Qed.

(** X12: a run that has returned asked the shell exactly this, after
    whatever the shell had been asked before: on the clean exit the log
    line and [wx.Exit()], on any failure the critical log, the message box,
    the termination flag and [wx.Exit()], for the exception that ended it;
    and a run that failed before the streaming loop has sent nothing and
    made at most the one bulk read of the calibration. *)
Theorem run_exit_report `{Libm} (fuel : nat) (w : world) (cfg : config) (st : state) :
  shell (snd (run_tracker_server fuel w cfg st))
  = shell st ++ exit_events (fst (run_tracker_server fuel w cfg st))
  /\ (reached_streaming (fst (run_tracker_server fuel w cfg st)) = false ->
      sent (snd (run_tracker_server fuel w cfg st)) = sent st
      /\ pose_reads (snd (run_tracker_server fuel w cfg st)) <= pose_reads st + 1).
Proof.
  pose proof (startup_total w cfg st) as Htot.
  pose proof (startup_state w cfg st) as Hst.
  unfold run_tracker_server.
  destruct (startup w cfg st) as [[idx|e|] st1]; cbn [fst snd] in Htot, Hst; subst st1;
    [| |contradiction].
  - destruct (y_delta_of_effect w cfg st) as (Hsent & Hshell & Hreads).
    pose proof (y_delta_of_returns w cfg st) as Hret.
    destruct (y_delta_of w cfg st) as [[yd|e|] st2];
      cbn [fst snd] in Hsent, Hshell, Hreads, Hret; [| |contradiction].
    + destruct (stream_loop_trace w idx yd fuel 0 st2) as (msgs & _ & _ & Hs).
      rewrite Hs, Hshell. split; [reflexivity|].
      pose proof (stream_loop_outcome w idx yd fuel 0 st2) as Ho.
      destruct (fst (stream_loop fuel w idx yd 0 st2)); cbn [reached_streaming];
        try contradiction; discriminate.
    + cbn [fst snd exit_events reached_streaming error_handling log sent shell pose_reads].
      rewrite Hshell. split; [reflexivity|]. intros _. split; [exact Hsent | lia].
  - cbn [fst snd exit_events reached_streaming error_handling log sent shell pose_reads].
    split; [reflexivity|]. intros _. split; [reflexivity | lia].
Qed.

(** X13: how the calibration can end.  When it returns, the offset is a
    float; when it raises, the exception is the [RuntimeError] of a
    reference device that is not found, the exception of the bulk pose
    read, or the [IndexError] of a pose without an entry [1][3].  The
    reference pose is never run through the Euler extraction, and the
    resolved index is never [None]. *)
Theorem calibrate_result (w : world) (cfg : config) (std : string) (st : state) :
  match fst (calibrate w cfg std st) with
  | OK y_delta => exists f, y_delta = PyFloat f
  | Err e =>
      (e = RuntimeError /\ not_found (device_slots w) std)
      \/ last_poses w (pose_reads st) = inl e
      \/ e = IndexError
  | OutOfFuel => False
  end.
Proof.
  rewrite calibrate_unfold.
  destruct (get_device_index_cases (device_slots w) std false)
    as [(i & _ & ->) | (Hnf & ->)]; [|cbn [fst]; auto].
  destruct (last_poses w (pose_reads st)) as [e|poses]; [cbn [fst]; auto|].
  cbn [fst].
  repeat lazymatch goal with
  | |- match bindR (py_index ?xs ?k) _ with _ => _ end =>
      let Hidx := fresh "Hidx" in
      let Hret := fresh "Hret" in
      pose proof (@py_index_error _ xs k) as Hidx;
      pose proof (@py_index_returns _ xs k) as Hret;
      destruct (py_index xs k); cbn [bindR];
      [ clear Hidx Hret | rewrite (Hidx _ eq_refl); auto | contradiction ]
  end.
  eexists. reflexivity.
Qed.

Lemma run_exit_report_witness :
  shell (snd (run_tracker_server (H := maclaurin_libm) 3 studio missing_reference
                initial_state))
  = [LogCritical RuntimeError; MessageBox RuntimeError; SetThreadTerminate; WxExit]
  /\ sent (snd (run_tracker_server (H := maclaurin_libm) 3 studio missing_reference
                  initial_state)) = [].
Proof.
  destruct (run_exit_report (H := maclaurin_libm) 3 studio missing_reference
              initial_state) as (Hshell & Hquiet).
  split; [exact Hshell|]. apply Hquiet. reflexivity.
Defined.

(* ===================================================================== *)
(** ** The streaming loop at any iteration *)
(* ===================================================================== *)

(** The loop goes through its first [n] iterations as [ticks] does, as
    long as the flag is read clear and none raises. *)
Lemma stream_loop_after_ticks `{Libm} (w : world) (idx : list nat) (yd : pynum)
  (fuel n : nat) :
  forall t st st_n,
    (forall u, t <= u < t + n -> thread_terminate w u = false) ->
    ticks n w idx yd st = (OK tt, st_n) ->
    stream_loop (n + fuel) w idx yd t st = stream_loop fuel w idx yd (t + n) st_n.
Proof.
  induction n as [|n IH]; intros t st st_n Hclear Hticks.
  - cbn in Hticks. inversion Hticks; subst. now rewrite Nat.add_0_r.
  - cbn [ticks] in Hticks. cbn [Nat.add stream_loop].
    rewrite (Hclear t ltac:(lia)).
    destruct (tick w idx yd st) as [[[]|e|] st1]; try discriminate.
    rewrite (IH (S t) st1 st_n); [f_equal; lia| |exact Hticks].
    intros u Hu. apply Hclear. lia.
Qed.

Lemma stream_loop_clean_exit_only `{Libm} (w : world) (idx : list nat) (yd : pynum)
  (fuel : nat) :
  forall t st st',
    stream_loop fuel w idx yd t st = (Terminated, st') ->
    exists n st_n,
      n < fuel
      /\ (forall u, t <= u < t + n -> thread_terminate w u = false)
      /\ thread_terminate w (t + n) = true
      /\ ticks n w idx yd st = (OK tt, st_n)
      /\ st' = log [LogInfo "Terminate signal received."; WxExit] st_n.
Proof.
  induction fuel as [|fuel IH]; intros t st st' Hrun; cbn [stream_loop] in Hrun.
  - discriminate.
  - destruct (thread_terminate w t) eqn:Hflag.
    + inversion Hrun; subst. exists 0, st. rewrite Nat.add_0_r.
      repeat split; [lia | intros u Hu; lia | exact Hflag].
    + destruct (tick w idx yd st) as [[[]|e|] st1] eqn:Htick; try discriminate.
      destruct (IH _ _ _ Hrun) as (n & st_n & Hn & Hclear & Hset & Hticks & ->).
      exists (S n), st_n. cbn [ticks]. rewrite Htick.
      replace (t + S n) with (S t + n) by lia.
      repeat split; [lia | | exact Hset | exact Hticks].
      intros u Hu. destruct (Nat.eq_dec u t) as [->|Hne]; [exact Hflag|].
      apply Hclear. lia.
Qed.

(** C6: whichever iteration it is, when the loop reaches it (the earlier
    ones read the flag clear and completed) and the termination flag is set
    at its start, the loop ends there in the terminal state through the
    clean exit: no pose is read and no message is sent in that iteration,
    no error is handled; and the clean exit is reached only so, every
    other end of the loop being the failure branch. *)
Theorem termination_flag_exit `{Libm} (w : world) (device_indexes : list nat)
  (y_delta : pynum) (fuel t : nat) (st : state) :
  (forall n st_n,
      n < fuel ->
      (forall u, t <= u < t + n -> thread_terminate w u = false) ->
      thread_terminate w (t + n) = true ->
      ticks n w device_indexes y_delta st = (OK tt, st_n) ->
      stream_loop fuel w device_indexes y_delta t st
      = (Terminated, log [LogInfo "Terminate signal received."; WxExit] st_n)
      /\ sent (snd (stream_loop fuel w device_indexes y_delta t st)) = sent st_n
      /\ pose_reads (snd (stream_loop fuel w device_indexes y_delta t st))
         = pose_reads st_n
      /\ shell (snd (stream_loop fuel w device_indexes y_delta t st))
         = shell st_n ++ [LogInfo "Terminate signal received."; WxExit])
  /\ (forall st',
        stream_loop fuel w device_indexes y_delta t st = (Terminated, st') ->
        exists n st_n,
          n < fuel
          /\ (forall u, t <= u < t + n -> thread_terminate w u = false)
          /\ thread_terminate w (t + n) = true
          /\ ticks n w device_indexes y_delta st = (OK tt, st_n)
          /\ st' = log [LogInfo "Terminate signal received."; WxExit] st_n)
  /\ (fst (stream_loop fuel w device_indexes y_delta t st) = Terminated
      \/ (exists e, fst (stream_loop fuel w device_indexes y_delta t st) = LoopFailed e)
      \/ fst (stream_loop fuel w device_indexes y_delta t st) = StillRunning).
Proof.
  split; [|split].
  - intros n st_n Hn Hclear Hset Hticks.
    assert (Hrun : stream_loop fuel w device_indexes y_delta t st
                   = (Terminated, log [LogInfo "Terminate signal received."; WxExit] st_n)).
    { replace fuel with (n + S (fuel - S n)) by lia.
      rewrite (@stream_loop_after_ticks _ w device_indexes y_delta (S (fuel - S n)) n
                 t st st_n Hclear Hticks).
      cbn [stream_loop]. now rewrite Hset. }
    rewrite Hrun. repeat split.
  - intros st' Hrun. exact (stream_loop_clean_exit_only _ _ _ _ _ _ Hrun).
  - pose proof (stream_loop_outcome w device_indexes y_delta fuel t st) as Ho.
    destruct (fst (stream_loop fuel w device_indexes y_delta t st));
      try contradiction; eauto.
Qed.

Lemma termination_flag_exit_witness :
  stream_loop (H := maclaurin_libm) 5 studio [1; 2] (PyInt 0) 0 initial_state
  = (Terminated,
     log [LogInfo "Terminate signal received."; WxExit]
       (snd (ticks (H := maclaurin_libm) 2 studio [1; 2] (PyInt 0) initial_state)))
  /\ List.length
       (sent (snd (stream_loop (H := maclaurin_libm) 5 studio [1; 2] (PyInt 0) 0
                     initial_state))) = 16
  /\ pose_reads
       (snd (stream_loop (H := maclaurin_libm) 5 studio [1; 2] (PyInt 0) 0
               initial_state)) = 2.
Proof.
  assert (Hclear : forall u, 0 <= u < 0 + 2 -> thread_terminate studio u = false).
  { intros u Hu. assert (Hc : u = 0 \/ u = 1) by lia. destruct Hc as [-> | ->]; reflexivity. }
  destruct (termination_flag_exit (H := maclaurin_libm) studio [1; 2] (PyInt 0) 5 0
              initial_state) as (Hexit & _).
  destruct (Hexit 2 (snd (ticks (H := maclaurin_libm) 2 studio [1; 2] (PyInt 0)
                            initial_state)) ltac:(lia) Hclear eq_refl)
    as (Hrun & Hsent & Hreads & _).
  { vm_compute. reflexivity. }
  split; [exact Hrun|]. rewrite Hsent, Hreads. split; reflexivity.
Defined.

Lemma stream_device_transform_error `{Libm} (w : world) (yd : pynum)
  (poses : list matrix) (i j : nat) (st : state) (e : exn) :
  transform poses j = Err e ->
  stream_device w yd poses i j st = (Err e, st).
Proof.
  unfold transform, stream_device, bind, lift. intros Ht.
  destruct (py_index poses j) as [m|e0|]; cbn [bindR] in Ht; try congruence.
  destruct (get_position m) as [[[x y] z]|e0|]; cbn [bindR] in Ht; try congruence.
  destruct (get_euler_angle m) as [[[rx ry] rz]|e0|]; cbn [bindR] in Ht; congruence.
Qed.

Lemma length_sent_push (msgs : list message) (st : state) :
  List.length (sent (push msgs st)) = List.length (sent st) + List.length msgs.
Proof. cbn [push sent]. apply length_app. Qed.

(** The send number [s] (counted from 0) of a channel raises, the earlier
    ones went through: the device stops there, with the first [s] messages
    of the channel sent. *)
Lemma stream_device_send_error `{Libm} (w : world) (yd : pynum)
  (poses : list matrix) (i j : nat) (st : state)
  (chan : matrix * (pynum * pynum * pynum)) (s : nat) (e : exn) :
  extracted poses j chan ->
  s < 4 ->
  (forall p, List.length (sent st) <= p < List.length (sent st) + s ->
             send_fault w p = None) ->
  send_fault w (List.length (sent st) + s) = Some e ->
  stream_device w yd poses i j st
  = (Err e, push (firstn s (channel_messages "/tracking/" yd (S i) (fst chan) (snd chan))) st).
Proof.
  destruct chan as [m [[rx ry] rz]]. intros (Hm & Hwf & Hrot) Hs Hok Hfault.
  cbn [fst snd] in *. unfold stream_device, bind, lift.
  rewrite (py_index_some _ _ Hm), (get_position_entries Hwf), Hrot.
  rewrite Nat.add_1_r.
  destruct s as [|[|[|[|s]]]]; [| | | |lia].
  - rewrite Nat.add_0_r in Hfault.
    rewrite (send_message_fault _ _ _ _ Hfault). cbn [firstn]. now rewrite push_nil.
  - rewrite send_message_ok by (apply Hok; lia).
    rewrite send_message_fault with (e := e)
      by (rewrite length_sent_push; exact Hfault).
    reflexivity.
  - rewrite send_message_ok by (apply Hok; lia).
    rewrite send_message_ok by (rewrite length_sent_push; apply Hok; cbn; lia).
    rewrite send_message_fault with (e := e)
      by (rewrite !length_sent_push; cbn [List.length];
          rewrite <- Nat.add_assoc; exact Hfault).
    rewrite push_push. reflexivity.
  - rewrite send_message_ok by (apply Hok; lia).
    rewrite send_message_ok by (rewrite length_sent_push; apply Hok; cbn; lia).
    rewrite send_message_ok by (rewrite !length_sent_push; apply Hok; cbn; lia).
    rewrite send_message_fault with (e := e)
      by (rewrite !length_sent_push; cbn [List.length];
          rewrite <- !Nat.add_assoc; exact Hfault).
    rewrite !push_push. reflexivity.
Qed.

Lemma stream_devices_app `{Libm} (w : world) (yd : pynum) (poses : list matrix)
  (pre rest : list nat) :
  forall i st,
    stream_devices w yd poses i (pre ++ rest) st
    = match stream_devices w yd poses i pre st with
      | (OK _, st1) => stream_devices w yd poses (i + List.length pre) rest st1
      | (Err e, st1) => (Err e, st1)
      | (OutOfFuel, st1) => (OutOfFuel, st1)
      end.
Proof.
  induction pre as [|j pre IH]; intros i st; cbn [app stream_devices List.length].
  - unfold ret. now rewrite Nat.add_0_r.
  - unfold bind at 1 2.
    destruct (stream_device w yd poses i j st) as [[[]|e|] st1]; try reflexivity.
    rewrite IH. now replace (S i + List.length pre) with (i + S (List.length pre)) by lia.
Qed.

(** The devices before position [length pre] went through, the one at that
    position ends as [stream_device] says: so do the devices as a whole. *)
Lemma stream_devices_stop_at `{Libm} (w : world) (yd : pynum) (poses : list matrix)
  (pre rest : list nat) (j : nat) chans (st st' : state) (e : exn) :
  Forall2 (extracted poses) pre chans ->
  (forall p, List.length (sent st) <= p < List.length (sent st) + 4 * List.length pre ->
             send_fault w p = None) ->
  stream_device w yd poses (List.length pre) j
    (push (tick_messages "/tracking/" yd 1 chans) st) = (Err e, st') ->
  stream_devices w yd poses 0 (pre ++ j :: rest) st = (Err e, st').
Proof.
  intros Hext Hok Hdev.
  rewrite stream_devices_app, (stream_devices_ok w yd Hext 0 st Hok).
  cbn [Nat.add stream_devices]. unfold bind. now rewrite Hdev.
Qed.

Lemma stream_loop_failure_only `{Libm} (w : world) (idx : list nat) (yd : pynum)
  (fuel : nat) :
  forall t st e st_end,
    stream_loop fuel w idx yd t st = (LoopFailed e, st_end) ->
    exists n st_n st',
      n < fuel
      /\ ticks n w idx yd st = (OK tt, st_n)
      /\ tick w idx yd st_n = (Err e, st')
      /\ st_end = error_handling e st'.
Proof.
  induction fuel as [|fuel IH]; intros t st e st_end Hrun; cbn [stream_loop] in Hrun.
  - discriminate.
  - destruct (thread_terminate w t); [discriminate|].
    destruct (tick w idx yd st) as [[[]|e0|] st1] eqn:Htick; try discriminate.
    + destruct (IH _ _ _ _ Hrun) as (n & st_n & st' & Hn & Hticks & Hfail & ->).
      exists (S n), st_n, st'. cbn [ticks]. rewrite Htick.
      repeat split; [lia | exact Hticks | exact Hfail].
    + inversion Hrun; subst. exists 0, st, st1. repeat split; [lia | exact Htick].
Qed.

(** C7: whichever iteration it is, when the loop reaches it (the flag read
    clear, the earlier iterations completed) and it raises, the loop ends
    there in the failure branch whatever the exception is: the handler
    reports it to the operator, and no further pose is read and no message
    is sent after the point of failure, however many iterations the loop
    might still have run; the loop ends in the failure branch only so.
    Such an exception is raised by the bulk pose read, by the pose lookup
    or the transform of the device of any channel, and by any of the four
    sends of any channel, the messages before it staying sent. *)
Theorem tick_failure_is_fatal `{Libm} (w : world) (device_indexes : list nat)
  (y_delta : pynum) (fuel t n : nat) (st st_n : state) :
  n < fuel ->
  (forall u, t <= u <= t + n -> thread_terminate w u = false) ->
  ticks n w device_indexes y_delta st = (OK tt, st_n) ->
  (forall e st',
      tick w device_indexes y_delta st_n = (Err e, st') ->
      stream_loop fuel w device_indexes y_delta t st
      = (LoopFailed e, error_handling e st')
      /\ sent (error_handling e st') = sent st'
      /\ pose_reads (error_handling e st') = pose_reads st'
      /\ shell (error_handling e st')
         = shell st' ++ [LogCritical e; MessageBox e; SetThreadTerminate; WxExit])
  /\ (forall e st_end,
        stream_loop fuel w device_indexes y_delta t st = (LoopFailed e, st_end) ->
        exists k st_k st',
          k < fuel
          /\ ticks k w device_indexes y_delta st = (OK tt, st_k)
          /\ tick w device_indexes y_delta st_k = (Err e, st')
          /\ st_end = error_handling e st')
  /\ (forall e,
        last_poses w (pose_reads st_n) = inl e ->
        tick w device_indexes y_delta st_n = (Err e, after_pose_read st_n))
  /\ (forall poses pre chans j rest e,
        last_poses w (pose_reads st_n) = inr poses ->
        device_indexes = pre ++ j :: rest ->
        Forall2 (extracted poses) pre chans ->
        (forall p, List.length (sent st_n) <= p
                   < List.length (sent st_n) + 4 * List.length pre ->
                   send_fault w p = None) ->
        transform poses j = Err e ->
        tick w device_indexes y_delta st_n
        = (Err e, push (tick_messages "/tracking/" y_delta 1 chans) (after_pose_read st_n)))
  /\ (forall poses pre chans j chan rest s e,
        last_poses w (pose_reads st_n) = inr poses ->
        device_indexes = pre ++ j :: rest ->
        Forall2 (extracted poses) pre chans ->
        extracted poses j chan ->
        s < 4 ->
        (forall p, List.length (sent st_n) <= p
                   < List.length (sent st_n) + 4 * List.length pre + s ->
                   send_fault w p = None) ->
        send_fault w (List.length (sent st_n) + 4 * List.length pre + s) = Some e ->
        tick w device_indexes y_delta st_n
        = (Err e,
           push (tick_messages "/tracking/" y_delta 1 chans
                 ++ firstn s (channel_messages "/tracking/" y_delta
                                (S (List.length pre)) (fst chan) (snd chan)))
             (after_pose_read st_n))).
Proof.
  intros Hn Hclear Hticks. split; [|split; [|split; [|split]]].
  - intros e st' Htick.
    replace fuel with (n + S (fuel - S n)) by lia.
    rewrite (@stream_loop_after_ticks _ w device_indexes y_delta (S (fuel - S n)) n
               t st st_n) by (try exact Hticks; intros u Hu; apply Hclear; lia).
    cbn [stream_loop]. rewrite (Hclear (t + n) ltac:(lia)), Htick. repeat split.
  - intros e st_end Hrun. exact (stream_loop_failure_only _ _ _ _ _ _ Hrun).
  - intros e Hread. now apply tick_read_failure.
  - intros poses pre chans j rest e Hread -> Hext Hok Htransform.
    apply (@tick_devices_failure _ w (pre ++ j :: rest) y_delta st_n _ poses e Hread).
    apply (@stream_devices_stop_at _ w y_delta poses pre rest j chans
             (after_pose_read st_n) _ e Hext).
    + exact Hok.
    + now apply stream_device_transform_error.
  - intros poses pre chans j chan rest s e Hread -> Hext Hchan Hs Hok Hfault.
    apply (@tick_devices_failure _ w (pre ++ j :: rest) y_delta st_n _ poses e Hread).
    apply (@stream_devices_stop_at _ w y_delta poses pre rest j chans
             (after_pose_read st_n) _ e Hext).
    + intros p Hp. apply Hok. cbn [after_pose_read sent] in *. lia.
    + rewrite <- push_push.
      assert (Hlen : List.length
                       (sent (push (tick_messages "/tracking/" y_delta 1 chans)
                                (after_pose_read st_n)))
                     = List.length (sent st_n) + 4 * List.length pre).
      { rewrite length_sent_push, tick_messages_length.
        rewrite <- (Forall2_length Hext). reflexivity. }
      apply stream_device_send_error; [exact Hchan | exact Hs | |].
      * intros p Hp. apply Hok. rewrite Hlen in Hp. lia.
      * rewrite Hlen. exact Hfault.
Qed.

Lemma tick_failure_is_fatal_witness :
  (* the second bulk read raises *)
  stream_loop (H := maclaurin_libm) 4 studio_read_failure [1; 2] (PyInt 0) 0 initial_state
  = (LoopFailed OpenVRError,
     error_handling OpenVRError
       (after_pose_read
          (snd (ticks (H := maclaurin_libm) 1 studio_read_failure [1; 2] (PyInt 0)
                  initial_state))))
  (* the transform of the second channel raises *)
  /\ stream_loop (H := maclaurin_libm) 4 studio_pitched [2; 1] (PyInt 0) 0 initial_state
     = (LoopFailed ZeroDivisionError,
        error_handling ZeroDivisionError
          (push (tick_messages "/tracking/" (PyInt 0) 1 (skipn 1 studio_channels))
             (after_pose_read initial_state)))
  (* the second send of the second channel raises *)
  /\ stream_loop (H := maclaurin_libm) 4 studio_send_failure [1; 2] (PyInt 0) 0
       initial_state
     = (LoopFailed TransportError,
        error_handling TransportError
          (push (tick_messages "/tracking/" (PyInt 0) 1 (firstn 1 studio_channels)
                 ++ firstn 1 (channel_messages "/tracking/" (PyInt 0) 2 pose_yawed
                                (snd (nth 1 studio_channels (pose_yawed,
                                        (PyInt 0, PyInt 0, PyInt 0))))))
             (after_pose_read initial_state))).
Proof.
  pose proof (well_formed_4x4 0.96 0 0.28 0.1 0 1 0 1.2 (-0.28) 0 0.96 0.3 0 0 0 1
              : well_formed pose_yawed)%float as Wy.
  pose proof (well_formed_4x4 1 0 0 0.1 0 1 0 1.2 0 0 1 0.3 0 0 0 1
              : well_formed pose_level)%float as Wl.
  split; [|split].
  - destruct (@tick_failure_is_fatal maclaurin_libm studio_read_failure [1; 2]
                (PyInt 0) 4 0 1 initial_state
                (snd (ticks (H := maclaurin_libm) 1 studio_read_failure [1; 2]
                        (PyInt 0) initial_state)))
      as (Hfatal & _ & Hread & _).
    + lia.
    + intros u Hu. reflexivity.
    + vm_compute. reflexivity.
    + apply Hfatal. apply Hread. reflexivity.
  - destruct (@tick_failure_is_fatal maclaurin_libm studio_pitched [2; 1]
                (PyInt 0) 4 0 0 initial_state initial_state)
      as (Hfatal & _ & _ & Htransform & _).
    + lia.
    + intros u Hu. reflexivity.
    + reflexivity.
    + apply Hfatal.
      apply (Htransform [pose_reference; pose_pitched_quarter; pose_yawed; pose_vacant]
               [2] (skipn 1 studio_channels) 1 [] ZeroDivisionError); try reflexivity.
      repeat constructor; assumption.
  - destruct (@tick_failure_is_fatal maclaurin_libm studio_send_failure [1; 2]
                (PyInt 0) 4 0 0 initial_state initial_state)
      as (Hfatal & _ & _ & _ & Hsend).
    + lia.
    + intros u Hu. reflexivity.
    + reflexivity.
    + apply Hfatal.
      apply (Hsend studio_poses [1] (firstn 1 studio_channels) 2
               (nth 1 studio_channels (pose_yawed, (PyInt 0, PyInt 0, PyInt 0)))
               [] 1 TransportError); try reflexivity.
      * repeat constructor; assumption.
      * repeat constructor; assumption.
      * lia.
      * intros p Hp. cbn in Hp.
        assert (Hc : p = 0 \/ p = 1 \/ p = 2 \/ p = 3 \/ p = 4) by lia.
        destruct Hc as [-> | [-> | [-> | [-> | ->]]]]; reflexivity.
Defined.
